(** * PanelSplit: period-aware cross-validation splitting for panel data

    A shallow embedding of [panelsplit/panelsplit.py] and the properties of
    its specification.

    Python values are modelled as follows.
    - integers are [Z]; a period value is an integer;
    - a label is [option Z], [None] being a missing value (NaN);
    - a pandas Series is the list of its (index label, value) rows, a
      DataFrame likewise with a row payload;
    - a boolean mask (a numpy array of booleans) is a [list bool];
    - an exception is a value of [exn]; a call either returns or raises;
    - attribute updates of [self], output printed on stdout, warnings and
      the objects of the heap are threaded through a state and error monad. *)

From Stdlib Require Import String DecimalString.
From Stdlib Require Import ZArith List Bool Lia Sorted Permutation.
From Stdlib Require Import Orders OrdersEx Mergesort.
Import ListNotations.

Local Open Scope string_scope.
Local Open Scope Z_scope.

Set Implicit Arguments.

(** ** Python runtime: exceptions, results, the state and error monad *)

Module Py.

Inductive exn : Type :=
| NameError (name : string)
| ValueError (msg : string)
| TypeError (msg : string)
| AttributeError (msg : string)
| IndexError (msg : string)
| KeyError (key : Z).

Inductive result (A : Type) : Type :=
| Ok (a : A)
| Raise (e : exn).
Arguments Ok {A} a.
Arguments Raise {A} e.

Definition is_ok {A} (r : result A) : bool :=
  match r with Ok _ => true | Raise _ => false end.

(** A computation over a state [S]: it returns or raises, and in both cases
    leaves a state behind (what was mutated before an exception stays
    mutated). *)
Definition M (S A : Type) : Type := S -> result A * S.

Definition ret {S A} (a : A) : M S A := fun s => (Ok a, s).

Definition bind {S A B} (c : M S A) (k : A -> M S B) : M S B :=
  fun s => match c s with
           | (Ok a, s') => k a s'
           | (Raise e, s') => (Raise e, s')
           end.

Definition raise {S A} (e : exn) : M S A := fun s => (Raise e, s).

Definition get {S} : M S S := fun s => (Ok s, s).

Definition modify {S} (f : S -> S) : M S unit := fun s => (Ok tt, f s).

Definition lift_result {S A} (r : result A) : M S A := fun s => (r, s).

(** Run a computation on one component of a larger state. *)
Definition zoom {S T A} (proj : T -> S) (inj : S -> T -> T) (c : M S A) : M T A :=
  fun t => let '(r, s') := c (proj t) in (r, inj s' t).

(** [for x in xs: body(x)] *)
Fixpoint for_each {S A} (xs : list A) (body : A -> M S unit) : M S unit :=
  match xs with
  | [] => ret tt
  | x :: xs' => bind (body x) (fun _ => for_each xs' body)
  end.

(** [for x in xs: acc = body(acc, x)], for a loop that builds local lists. *)
Fixpoint fold_each {S A B} (xs : list A) (acc : B) (body : B -> A -> M S B) : M S B :=
  match xs with
  | [] => ret acc
  | x :: xs' => bind (body acc x) (fun acc' => fold_each xs' acc' body)
  end.

(** [enumerate(xs)] *)
Fixpoint enumerate_from {A} (i : nat) (xs : list A) : list (nat * A) :=
  match xs with
  | [] => []
  | x :: xs' => (i, x) :: enumerate_from (S i) xs'
  end.

Definition enumerate {A} (xs : list A) : list (nat * A) := enumerate_from 0 xs.

(** [str(i)] for an integer. *)
Definition str_of_Z (z : Z) : string := NilZero.string_of_int (Z.to_int z).

Definition str_of_nat (n : nat) : string := str_of_Z (Z.of_nat n).

(** [range(start, stop, step)]; a zero step raises. *)
Definition range_len (start stop step : Z) : Z :=
  if 0 <? step then
    (if start <? stop then (stop - start - 1) / step + 1 else 0)
  else
    (if stop <? start then (start - stop - 1) / (- step) + 1 else 0).

Definition range (start stop step : Z) : result (list Z) :=
  if step =? 0 then Raise (ValueError "range() arg 3 must not be zero")
  else Ok (map (fun i => start + Z.of_nat i * step)
               (seq 0 (Z.to_nat (range_len start stop step)))).

(** [xs[start:stop]] with Python's treatment of negative and out-of-range
    bounds. *)
Definition slice_bound (len i : Z) : Z :=
  if i <? 0 then Z.max 0 (i + len) else Z.min i len.

Definition slice {A} (xs : list A) (start stop : Z) : list A :=
  let len := Z.of_nat (length xs) in
  let lo := slice_bound len start in
  let hi := slice_bound len stop in
  firstn (Z.to_nat (hi - lo)) (skipn (Z.to_nat lo) xs).

(** The names bound at module level in [panelsplit.py]: its imports and the
    class it defines.  A global name that is read and is not bound here (nor
    a builtin) raises [NameError] when the statement reading it runs. *)
Definition module_globals : list string :=
  ["TimeSeriesSplit"; "tqdm"; "pd"; "plt"; "Parallel"; "delayed"; "np";
   "PanelSplit"].

Definition global_name {S} (name : string) : M S unit :=
  if existsb (String.eqb name) module_globals then ret tt
  else raise (NameError name).

End Py.

Import Py.

Declare Scope py_scope.
Delimit Scope py_scope with py.
Notation "x <- c1 ;; c2" := (bind c1 (fun x => c2))
  (at level 100, c1 at next level, right associativity) : py_scope.
Notation "c1 ;;; c2" := (bind c1 (fun _ => c2))
  (at level 100, right associativity) : py_scope.
Local Open Scope py_scope.

(** ** pandas: the operations of Series and DataFrame the module uses *)

Module Pandas.

Definition Period := Z.
Definition Label := option Z.
Definition Mask := list bool.

(** A Series or DataFrame: rows of (index label, value). *)
Definition Series (A : Type) := list (Z * A).

Definition values {A} (s : Series A) : list A := map snd s.
Definition index {A} (s : Series A) : list Z := map fst s.

(** [pd.Series(values)]: a fresh Series with the default RangeIndex. *)
Definition of_values {A} (vs : list A) : Series A :=
  combine (map Z.of_nat (seq 0 (length vs))) vs.

(** [s.unique()]: the distinct values in order of first appearance. *)
Fixpoint unique_values (vs : list Period) : list Period :=
  match vs with
  | [] => []
  | v :: vs' => v :: filter (fun w => negb (w =? v)) (unique_values vs')
  end.

Definition unique (s : Series Period) : list Period := unique_values (values s).

(** [s.sort_values()]: rows in ascending order of their value (each row
    keeps its index label). *)
Fixpoint insert_row {A} (r : Z * A) (key : A -> Z) (s : Series A) : Series A :=
  match s with
  | [] => [r]
  | r' :: s' => if key (snd r) <=? key (snd r') then r :: r' :: s'
                else r' :: insert_row r key s'
  end.

Fixpoint sort_values (s : Series Period) : Series Period :=
  match s with
  | [] => []
  | r :: s' => insert_row r (fun v => v) (sort_values s')
  end.

(** [s.reset_index(drop=True)] *)
Definition reset_index_drop {A} (s : Series A) : Series A := of_values (values s).

(** [s.iloc[positions].values]: positional selection; a position outside
    [-len, len) raises. *)
Definition iloc1 {A} (s : Series A) (i : Z) : result A :=
  let len := Z.of_nat (length s) in
  let j := if i <? 0 then i + len else i in
  if (j <? 0) || (len <=? j) then
    Raise (IndexError "positional indexers are out-of-bounds")
  else match nth_error (values s) (Z.to_nat j) with
       | Some v => Ok v
       | None => Raise (IndexError "positional indexers are out-of-bounds")
       end.

Fixpoint iloc_values {A} (s : Series A) (positions : list Z) : result (list A) :=
  match positions with
  | [] => Ok []
  | i :: rest =>
      match iloc1 s i with
      | Raise e => Raise e
      | Ok v => match iloc_values s rest with
                | Raise e => Raise e
                | Ok vs => Ok (v :: vs)
                end
      end
  end.

(** [s.isin(vals).values]: one boolean per row. *)
Definition isin (s : Series Period) (vals : list Period) : Mask :=
  map (fun p => existsb (Z.eqb p) vals) (values s).

(** [s.loc[mask]] for a boolean array: the rows where the mask is True; the
    mask must be as long as the Series. *)
Fixpoint select_mask {A} (rows : list A) (mask : Mask) : list A :=
  match rows, mask with
  | r :: rows', b :: mask' =>
      if b then r :: select_mask rows' mask' else select_mask rows' mask'
  | _, _ => []
  end.

Definition loc_mask {A} (s : Series A) (mask : Mask) : result (Series A) :=
  if Nat.eqb (length mask) (length s) then Ok (select_mask s mask)
  else Raise (IndexError "Boolean index has wrong length").

(** [s.loc[labels]] for a list of index labels: for each label, the rows
    carrying it; a label that no row carries raises [KeyError]. *)
Fixpoint loc_labels {A} (s : Series A) (labels : list Z) : result (Series A) :=
  match labels with
  | [] => Ok []
  | l :: rest =>
      match filter (fun r => fst r =? l) s with
      | [] => Raise (KeyError l)
      | hit => match loc_labels s rest with
               | Raise e => Raise e
               | Ok more => Ok (hit ++ more)%list
               end
      end
  end.

(** [s.dropna()] *)
Definition dropna (s : Series Label) : Series Label :=
  filter (fun r => match snd r with Some _ => true | None => false end) s.

(** [s.nunique()]: the number of distinct values, missing values excluded. *)
Fixpoint present (ls : list Label) : list Z :=
  match ls with
  | [] => []
  | Some v :: ls' => v :: present ls'
  | None :: ls' => present ls'
  end.

Definition nunique (s : Series Label) : Z :=
  Z.of_nat (length (unique_values (present (values s)))).

(** The number of rows a mask selects. *)
Definition count_true (m : Mask) : nat := length (filter (fun b => b) m).

(** [bool(obj)] of a Series or DataFrame: pandas refuses to give a truth
    value to either, the array being of any length. *)
Definition ambiguous_truth_value : exn :=
  ValueError "The truth value of a Series is ambiguous. Use a.empty, a.bool(), a.item(), a.any() or a.all().".

End Pandas.

Import Pandas.

(** ** sklearn.model_selection.TimeSeriesSplit: the interval selector

    The selector is a collaborator of the module, not part of it.  It is
    modelled after the library: the constructor refuses fewer than two
    splits, and [split] over [n_samples] items checks its parameters and
    then yields one (train positions, test positions) pair per test start. *)

Module Sklearn.

Record TimeSeriesSplit : Type := {
  tss_n_splits : Z;
  tss_gap : option Z;
  tss_test_size : option Z;
  tss_max_train_size : option Z
}.

Definition TimeSeriesSplit_init (n_splits : Z) (gap test_size max_train_size : option Z)
  : result TimeSeriesSplit :=
  if n_splits <=? 1 then
    Raise (ValueError ("k-fold cross-validation requires at least one train/test split by setting n_splits=2 or more, got n_splits="
                       ++ str_of_Z n_splits ++ "."))
  else Ok {| tss_n_splits := n_splits; tss_gap := gap;
             tss_test_size := test_size; tss_max_train_size := max_train_size |}.

(** [np.arange(n)] *)
Definition arange (n : Z) : list Z := map Z.of_nat (seq 0 (Z.to_nat n)).

Definition fold_positions (t : TimeSeriesSplit) (n_samples gap test_size test_start : Z)
  : list Z * list Z :=
  let indices := arange n_samples in
  let train_end := test_start - gap in
  let test := slice indices test_start (test_start + test_size) in
  match tss_max_train_size t with
  | Some m =>
      if negb (m =? 0) && (m <? train_end)
      then (slice indices (train_end - m) train_end, test)
      else (slice indices 0 train_end, test)
  | None => (slice indices 0 train_end, test)
  end.

Definition TimeSeriesSplit_split (t : TimeSeriesSplit) (n_samples : Z)
  : result (list (list Z * list Z)) :=
  let n_splits := tss_n_splits t in
  let n_folds := n_splits + 1 in
  let test_size := match tss_test_size t with
                   | Some ts => ts
                   | None => n_samples / n_folds
                   end in
  if n_samples <? n_folds then
    Raise (ValueError ("Cannot have number of folds=" ++ str_of_Z n_folds
                       ++ " greater than the number of samples="
                       ++ str_of_Z n_samples ++ "."))
  else
    match tss_gap t with
    | None => Raise (TypeError "unsupported operand type(s) for -: 'int' and 'NoneType'")
    | Some gap =>
        if n_samples - gap - test_size * n_splits <=? 0 then
          Raise (ValueError ("Too many splits=" ++ str_of_Z n_splits
                             ++ " for number of samples=" ++ str_of_Z n_samples
                             ++ " with test_size=" ++ str_of_Z test_size
                             ++ " and gap=" ++ str_of_Z gap ++ "."))
        else
          match range (n_samples - n_splits * test_size) n_samples test_size with
          | Raise e => Raise e
          | Ok test_starts =>
              Ok (map (fold_positions t n_samples gap test_size) test_starts)
          end
    end.

End Sklearn.

Import Sklearn.

(** ** The class PanelSplit *)

Module PanelSplit.

(** A period-level fold and a row-level fold. *)
Definition PeriodFold : Type := list Period * list Period.
Definition RowFold : Type := Mask * Mask.

(** The attributes of a PanelSplit object. *)
Record t : Type := {
  tss : TimeSeriesSplit;
  u_periods_cv : list PeriodFold;
  all_periods : Series Period;
  drop_folds : bool;
  n_splits : Z;
  all_indices : list RowFold
}.

(** What a call can write to besides the object: the lines printed and the
    warnings emitted. *)
Record Console : Type := {
  stdout : list string;
  warnings_log : list string
}.

Record State : Type := {
  self : t;
  console : Console
}.

Definition print (line : string) : M State unit :=
  modify (fun s =>
    {| self := self s;
       console := {| stdout := (stdout (console s) ++ [line])%list;
                     warnings_log := warnings_log (console s) |} |}).

Definition warn (msg : string) : M Console unit :=
  modify (fun c => {| stdout := stdout c;
                      warnings_log := (warnings_log c ++ [msg])%list |}).

Definition set_all_indices (v : list RowFold) : M State unit :=
  modify (fun s =>
    {| self := {| tss := tss (self s); u_periods_cv := u_periods_cv (self s);
                  all_periods := all_periods (self s);
                  drop_folds := drop_folds (self s);
                  n_splits := n_splits (self s); all_indices := v |};
       console := console s |}).

Definition set_n_splits (v : Z) : M State unit :=
  modify (fun s =>
    {| self := {| tss := tss (self s); u_periods_cv := u_periods_cv (self s);
                  all_periods := all_periods (self s);
                  drop_folds := drop_folds (self s);
                  n_splits := v; all_indices := all_indices (self s) |};
       console := console s |}).

(** [split_unique_periods]: the period values at the positions of each pair
    the selector yields.  The selector is a generator: what it raises, it
    raises here, when the loop asks for its first pair. *)
Fixpoint split_unique_periods_loop (indices : list (list Z * list Z))
    (unique_periods : Series Period) : result (list PeriodFold) :=
  match indices with
  | [] => Ok []
  | (train_index, test_index) :: rest =>
      match iloc_values unique_periods train_index with
      | Raise e => Raise e
      | Ok unique_train_periods =>
          match iloc_values unique_periods test_index with
          | Raise e => Raise e
          | Ok unique_test_periods =>
              match split_unique_periods_loop rest unique_periods with
              | Raise e => Raise e
              | Ok u_periods_cv =>
                  Ok ((unique_train_periods, unique_test_periods) :: u_periods_cv)
              end
          end
      end
  end.

Definition split_unique_periods (indices : result (list (list Z * list Z)))
    (unique_periods : Series Period) : result (list PeriodFold) :=
  match indices with
  | Raise e => Raise e
  | Ok pairs => split_unique_periods_loop pairs unique_periods
  end.

(** The condition of line 71 after [self.drop_folds and]:
    [(len(train_indices) == 0 or len(test_indices) == 0) or
     (y.loc[train_indices].nunique() == 1 or y.loc[test_indices].nunique() == 1)],
    evaluated left to right with short circuit.  [len] of a mask is the
    number of rows, whatever the mask selects. *)
Definition empty_or_single_valued (train_indices test_indices : Mask)
    (y : option (Series Label)) : result bool :=
  if Nat.eqb (length train_indices) 0 || Nat.eqb (length test_indices) 0 then Ok true
  else
    match y with
    | None => Raise (AttributeError "'NoneType' object has no attribute 'loc'")
    | Some labels =>
        match loc_mask labels train_indices with
        | Raise e => Raise e
        | Ok y_train =>
            if nunique y_train =? 1 then Ok true
            else match loc_mask labels test_indices with
                 | Raise e => Raise e
                 | Ok y_test => Ok (nunique y_test =? 1)
                 end
        end
    end.

Definition dropping_message (i : nat) : string :=
  "Dropping fold " ++ str_of_nat i
  ++ " as either the test or train set is either empty or contains only one unique value.".

(** The body of the loop of [split] for fold [i]. *)
Definition split_body (y : option (Series Label)) (init : bool)
    (fold : nat * PeriodFold) : M State unit :=
  let '(i, (train_periods, test_periods)) := fold in
  s <- get ;;
  let train_indices := isin (all_periods (self s)) train_periods in
  let test_indices := isin (all_periods (self s)) test_periods in
  drop <- (if drop_folds (self s)
           then lift_result (empty_or_single_valued train_indices test_indices y)
           else ret false) ;;
  if (drop : bool) then
    if init then
      (s <- get ;;
       set_n_splits (n_splits (self s) - 1) ;;;
       print (dropping_message i))
    else ret tt
  else
    (s <- get ;;
     set_all_indices (all_indices (self s) ++ [(train_indices, test_indices)])%list).

(** [split(self, X=None, y=None, groups=None, init=False)] *)
Definition split {XT GT : Type} (X : option XT) (y : option (Series Label))
    (groups : option GT) (init : bool) : M State (list RowFold) :=
  set_all_indices [] ;;;
  s <- get ;;
  for_each (enumerate (u_periods_cv (self s))) (split_body y init) ;;;
  s <- get ;;
  ret (all_indices (self s)).

(** [get_n_splits(self, X=None, y=None, groups=None)] *)
Definition get_n_splits {XT YT GT : Type} (X : option XT) (y : option YT)
    (groups : option GT) : M State Z :=
  s <- get ;;
  ret (n_splits (self s)).

(** [unique_periods == None]: [None == None] is [True]; a Series compares
    element by element and gives a boolean Series. *)
Inductive comparison_value : Type :=
| Scalar (b : bool)
| Elementwise (m : Mask).

Definition eq_None (unique_periods : option (Series Period)) : comparison_value :=
  match unique_periods with
  | None => Scalar true
  | Some s => Elementwise (map (fun _ => false) s)
  end.

(** The truth value an [if] asks of the comparison. *)
Definition truth_value (c : comparison_value) : result bool :=
  match c with
  | Scalar b => Ok b
  | Elementwise _ => Raise ambiguous_truth_value
  end.

(** The unique-period sequence of line 24. *)
Definition default_unique_periods (train_periods : Series Period) : Series Period :=
  sort_values (of_values (unique train_periods)).

(** Lines 23 to 27 of [__init__]: the unique periods, the selector and the
    period-level folds. *)
Definition period_folds (train_periods : Series Period)
    (unique_periods : option (Series Period)) (n_splits : Z)
    (gap test_size max_train_size : option Z)
  : M Console (Series Period * TimeSeriesSplit * list PeriodFold) :=
  is_none <- lift_result (truth_value (eq_None unique_periods)) ;;
  unique_periods <- (if (is_none : bool)
                     then (global_name "pd" ;;;
                           ret (default_unique_periods train_periods))
                     else match unique_periods with
                          | Some s => ret s
                          | None => raise (AttributeError "'NoneType' object has no attribute 'reset_index'")
                          end) ;;
  global_name "TimeSeriesSplit" ;;;
  tss <- lift_result (TimeSeriesSplit_init n_splits gap test_size max_train_size) ;;
  let indices :=
    TimeSeriesSplit_split tss (Z.of_nat (length (reset_index_drop unique_periods))) in
  u_periods_cv <- lift_result (split_unique_periods indices unique_periods) ;;
  ret (unique_periods, tss, u_periods_cv).

Definition missing_labels_error : exn :=
  ValueError "Cannot drop folds without specifying y values.".

(** Call a method on an object from code that has only the console. *)
Definition call_method {A} (obj : t) (m : M State A) : M Console (A * t) :=
  fun c => match m {| self := obj; console := c |} with
           | (Ok a, s') => (Ok (a, self s'), console s')
           | (Raise e, s') => (Raise e, console s')
           end.

(** [plot_time_series_splits]: draws the folds; nothing of the object or of
    the console changes. *)
Definition plot_time_series_splits (split_output : list PeriodFold) : M Console unit :=
  global_name "plt".

(** [__init__]: returns the constructed object, or raises. *)
Definition init (train_periods : Series Period)
    (unique_periods : option (Series Period)) (n_splits : Z)
    (gap test_size max_train_size : option Z) (plot drop_folds : bool)
    (y : option (Series Label)) : M Console t :=
  pf <- period_folds train_periods unique_periods n_splits gap test_size max_train_size ;;
  let '(_, tss, u_periods_cv) := pf in
  (match y, drop_folds with
   | Some _, false =>
       global_name "warnings" ;;;
       warn "Ignoring y values because drop_folds is False."
   | _, _ => ret tt
   end) ;;;
  (match y, drop_folds with
   | None, true => raise missing_labels_error
   | _, _ => ret tt
   end) ;;;
  let obj := {| tss := tss; u_periods_cv := u_periods_cv;
                all_periods := train_periods; drop_folds := drop_folds;
                n_splits := n_splits; all_indices := [] |} in
  r <- call_method obj (split (XT:=unit) (GT:=unit) None y None true) ;;
  let obj := snd r in
  (if plot then plot_time_series_splits (u_periods_cv) else ret tt) ;;;
  ret obj.


(** *** Model-like objects

    An estimator or an imputer is an object of the heap, known to the
    module by its reference and used through its methods only. *)

Definition ref : Type := nat.

Record World (O : Type) : Type := {
  panel : State;
  heap : list O
}.

Fixpoint store {O} (h : list O) (r : ref) (o : O) : list O :=
  match h, r with
  | [], _ => []
  | _ :: h', O => o :: h'
  | x :: h', S r' => x :: store h' r' o
  end.

(** The methods of a model-like object with states in [E], over feature
    rows [Row], sample weights [W] and predicted values [V].  [fit] gives
    the state of the receiver after the call and the object the call
    returns: [None] for the receiver itself ([return self], the convention
    of sklearn estimators), [Some m] for a new object in state [m]. *)
Class Estimator (E Row W V : Type) : Type := {
  fit : E -> Series Row -> Series Label -> option (Series W) -> result (E * option E);
  predict : E -> Series Row -> result (list V);
  predict_proba : E -> Series Row -> result (list (list V));
  predict_log_proba : E -> Series Row -> result (list (list V))
}.

(** The functions and methods of an imputer: [clone_of] is the state of the
    unfitted copy that [sklearn.base.clone] builds, [fit_imputer] the state
    of the receiver after [fit], [transform] the table it returns. *)
Class Imputer (I Row : Type) : Type := {
  clone_of : I -> I;
  fit_imputer : I -> Series Row -> result I;
  transform : I -> Series Row -> result (list Row)
}.

Section Appliers.

Context {O Row W V IdxRow : Type}.

Definition lift_panel {A} (m : M State A) : M (World O) A :=
  zoom (@panel O) (fun s w => {| panel := s; heap := heap w |}) m.

Definition deref (r : ref) : M (World O) O :=
  w <- get ;;
  match nth_error (heap w) r with
  | Some o => ret o
  | None => raise (AttributeError "no such object")
  end.

Definition assign (r : ref) (o : O) : M (World O) unit :=
  modify (fun w => {| panel := panel w; heap := store (heap w) r o |}).

Definition alloc (o : O) : M (World O) ref :=
  w <- get ;;
  modify (fun w => {| panel := panel w; heap := (heap w ++ [o])%list |}) ;;;
  ret (length (heap w)).

(** [a[:, 1]] *)
Fixpoint column1 (rows : list (list V)) : result (list V) :=
  match rows with
  | [] => Ok []
  | r :: rows' =>
      match nth_error r 1 with
      | None => Raise (IndexError "index 1 is out of bounds for axis 1")
      | Some v => match column1 rows' with
                  | Raise e => Raise e
                  | Ok vs => Ok (v :: vs)
                  end
      end
  end.

Definition invalid_prediction_method : exn :=
  ValueError "Invalid prediction_method. Supported values are 'predict', 'predict_proba', or 'predict_log_proba'.".

(** [_predict_fold]: the call [estimator.fit(...)] runs on the object the
    caller passed; [model] is whatever that call returns. *)
Definition _predict_fold `{Estimator O Row W V} (estimator : ref)
    (X_train : Series Row) (y_train : Series Label) (X_test : Series Row)
    (prediction_method : string) (sample_weight : option (Series W))
  : M (World O) (list V * ref) :=
  e <- deref estimator ;;
  fitted <- lift_result (fit e X_train y_train sample_weight) ;;
  assign estimator (fst fitted) ;;;
  model <- (match snd fitted with
            | None => ret estimator
            | Some m => alloc m
            end) ;;
  m <- deref model ;;
  if String.eqb prediction_method "predict" then
    out <- lift_result (predict m X_test) ;; ret (out, model)
  else if String.eqb prediction_method "predict_proba" then
    p <- lift_result (predict_proba m X_test) ;;
    out <- lift_result (column1 p) ;; ret (out, model)
  else if String.eqb prediction_method "predict_log_proba" then
    p <- lift_result (predict_log_proba m X_test) ;;
    out <- lift_result (column1 p) ;; ret (out, model)
  else raise invalid_prediction_method.

(** The table of predictions: the rows of [indices] under the test masks,
    each with its predicted value in the column [pred_column]. *)
Record Predictions : Type := {
  pred_column : string;
  pred_rows : Series (IdxRow * V)
}.

(** [pred[y_pred_col] = values]: one value per row, else the assignment
    raises.  A row of the result pairs a row of the index frame with the
    value of the column [y_pred_col]; the columns of the index frame are
    not modelled, so what is said of the result is said of its index labels
    and of the predicted values, which the assignment fixes whether or not
    the frame had a column of that name before. *)
Definition set_column (pred : Series IdxRow) (vs : list V)
  : result (Series (IdxRow * V)) :=
  if Nat.eqb (length vs) (length pred)
  then Ok (map (fun rv => (fst (fst rv), (snd (fst rv), snd rv))) (combine pred vs))
  else Raise (ValueError "Length of values does not match length of index").

(** [pd.concat(frames, axis=0)] *)
Definition concat {A} (frames : list (Series A)) : result (Series A) :=
  match frames with
  | [] => Raise (ValueError "No objects to concatenate")
  | _ => Ok (List.concat frames)
  end.

(** The body of the loop of [cross_val_predict]; the accumulator is the
    pair of the local lists [predictions] and [fitted_models]. *)
Definition cross_val_predict_body `{Estimator O Row W V} (estimator : ref)
    (X : Series Row) (y : Series Label) (indices : Series IdxRow)
    (prediction_method : string) (sample_weight : option (Series W))
    (acc : list (Series (IdxRow * V)) * list ref) (fold : RowFold)
  : M (World O) (list (Series (IdxRow * V)) * list ref) :=
  let '(predictions, fitted_models) := acc in
  let '(train_indices, test_indices) := fold in
  y_train <- lift_result (match loc_mask y train_indices with
                          | Raise e => Raise e
                          | Ok rows => Ok (dropna rows)
                          end) ;;
  X_train <- lift_result (loc_labels X (index y_train)) ;;
  X_test <- lift_result (loc_mask X test_indices) ;;
  _ <- lift_result (loc_mask y test_indices) ;;
  pred <- lift_result (loc_mask indices test_indices) ;;
  sw <- (match sample_weight with
         | Some w => sliced <- lift_result (loc_labels w (index y_train)) ;;
                     ret (Some sliced)
         | None => ret None
         end) ;;
  r <- _predict_fold estimator X_train y_train X_test prediction_method sw ;;
  let '(out, model) := r in
  pred <- lift_result (set_column pred out) ;;
  ret ((predictions ++ [pred])%list, (fitted_models ++ [model])%list).

(** [cross_val_predict]; [y_name] is [y.name].  The list of fitted models is
    returned when [return_fitted_models] is set. *)
Definition cross_val_predict `{Estimator O Row W V} (estimator : ref)
    (X : Series Row) (y : Series Label) (y_name : option string)
    (indices : Series IdxRow) (prediction_method : string)
    (y_pred_col : option string) (return_fitted_models : bool)
    (sample_weight : option (Series W))
  : M (World O) (Predictions * option (list ref)) :=
  let y_pred_col :=
    match y_pred_col with
    | Some c => c
    | None => (match y_name with Some n => n | None => "None" end) ++ "_pred"
    end in
  global_name "tqdm" ;;;
  folds <- lift_panel (split (XT:=unit) (GT:=unit) None None None false) ;;
  acc <- fold_each folds ([], [])
           (cross_val_predict_body estimator X y indices prediction_method sample_weight) ;;
  let '(predictions, fitted_models) := acc in
  global_name "pd" ;;;
  result_df <- lift_result (concat predictions) ;;
  let table := {| pred_column := y_pred_col; pred_rows := result_df |} in
  if return_fitted_models then ret (table, Some fitted_models)
  else ret (table, None).

(** [_X.loc[mask] = rows]: the rows written at the positions the mask
    selects, one row per selected position. *)
Fixpoint write_mask (table : Series Row) (mask : Mask) (rows : list Row) : Series Row :=
  match table, mask with
  | r :: table', true :: mask' =>
      match rows with
      | v :: rows' => (fst r, v) :: write_mask table' mask' rows'
      | [] => r :: write_mask table' mask' []
      end
  | r :: table', false :: mask' => r :: write_mask table' mask' rows
  | _, _ => table
  end.

Definition set_mask (table : Series Row) (mask : Mask) (rows : list Row)
  : result (Series Row) :=
  if negb (Nat.eqb (length mask) (length table)) then
    Raise (IndexError "Boolean index has wrong length")
  else if negb (Nat.eqb (length rows) (count_true mask)) then
    Raise (ValueError "shape mismatch: value array could not be broadcast to indexing result")
  else Ok (write_mask table mask rows).

(** The body of the loop of [cross_val_impute]; the accumulator is the pair
    of the working copy [_X] and the local list [imputers]. *)
Definition cross_val_impute_body `{Imputer O Row} (imputer : ref)
    (acc : Series Row * list ref) (fold : RowFold)
  : M (World O) (Series Row * list ref) :=
  let '(_X, imputers) := acc in
  let '(train_indices, test_indices) := fold in
  X_train <- lift_result (loc_mask _X train_indices) ;;
  X_test <- lift_result (loc_mask _X test_indices) ;;
  global_name "clone" ;;;
  template <- deref imputer ;;
  imputer_train <- alloc (clone_of template) ;;
  fitted <- lift_result (fit_imputer (clone_of template) X_train) ;;
  assign imputer_train fitted ;;;
  let imputers := (imputers ++ [imputer_train])%list in
  filled <- lift_result (transform fitted X_test) ;;
  _X <- lift_result (set_mask _X test_indices filled) ;;
  ret (_X, imputers).

(** [cross_val_impute]; the list of imputers is returned when
    [return_fitted_imputers] is set. *)
Definition cross_val_impute `{Imputer O Row} (imputer : ref) (X : Series Row)
    (return_fitted_imputers : bool)
  : M (World O) (Series Row * option (list ref)) :=
  splits <- lift_panel (split (XT:=unit) (GT:=unit) None None None false) ;;
  let _X := X in
  global_name "tqdm" ;;;
  folds <- lift_panel (split (XT:=unit) (GT:=unit) None None None false) ;;
  acc <- fold_each folds (_X, []) (cross_val_impute_body imputer) ;;
  let '(_X, imputers) := acc in
  if return_fitted_imputers then ret (_X, Some imputers)
  else ret (_X, None).

End Appliers.

End PanelSplit.

Import PanelSplit.

Definition console0 : Console := {| stdout := []; warnings_log := [] |}.

(** Rows of a Series with the default RangeIndex. *)
Definition series {A} (vs : list A) : Series A := of_values vs.

(** ** Vocabulary of the properties, instances and example data *)

(** The attributes no pass of [split] writes. *)
Definition same_config (a b : t) : Prop :=
  tss a = tss b /\ u_periods_cv a = u_periods_cv b /\
  all_periods a = all_periods b /\ drop_folds a = drop_folds b.

(** Split count minus the number of row-level folds collected so far. *)
Definition balance (s : State) : Z :=
  n_splits (self s) - Z.of_nat (length (all_indices (self s))).

(** Split count plus the number of lines printed so far. *)
Definition tally (s : State) : Z :=
  n_splits (self s) + Z.of_nat (length (stdout (console s))).




(** An object with nothing in it, and the object a construction returned
    (the empty one if it raised). *)
Definition blank : t :=
  {| tss := {| tss_n_splits := 0; tss_gap := None;
               tss_test_size := None; tss_max_train_size := None |};
     u_periods_cv := []; all_periods := []; drop_folds := false;
     n_splits := 0; all_indices := [] |}.

Definition object_of (built : result t * Console) : t :=
  match fst built with
  | Ok ps => ps
  | Raise _ => blank
  end.

(** Six rows over three periods, two rows per period. *)
Definition periods6 : Series Period := series [1; 1; 2; 2; 3; 3].

(** Labels that vary inside every period. *)
Definition labels_varied : Series Label :=
  series [Some 0; Some 1; Some 0; Some 1; Some 0; Some 1].

(** Labels that are constant on period 2, the test side of fold 0. *)
Definition labels_flat2 : Series Label :=
  series [Some 0; Some 1; Some 0; Some 0; Some 0; Some 1].

(** [PanelSplit(periods6, n_splits=2, gap=0, drop_folds=True, y=labels_flat2)] *)
Definition built_flat2 : result t * Console :=
  Eval vm_compute in
    init periods6 None 2 (Some 0) None None false true (Some labels_flat2) console0.

Definition panel_flat2 : t := Eval vm_compute in object_of built_flat2.

(** The sorted distinct values of a column, as the specification words it:
    the values without repetition, put in ascending order (by the merge
    sort of the standard library, to compare with what the constructor
    computes). *)
Module ZLeb := OTF_to_TTLB Z_as_OT.

Module ZSort := Mergesort.Sort ZLeb.

Definition sorted_distinct_values (vs : list Z) : list Z :=
  ZSort.sort (nodup Z.eq_dec vs).

Definition strictly_ascending (l : list Z) : Prop := StronglySorted Z.lt l.

(** Labels that are the same on every row. *)
Definition labels_constant : Series Label :=
  series [Some 0; Some 0; Some 0; Some 0; Some 0; Some 0].

(** [PanelSplit(periods6, n_splits=2, gap=0, drop_folds=True, y=labels_varied)] *)
Definition built_varied : result t * Console :=
  Eval vm_compute in
    init periods6 None 2 (Some 0) None None false true (Some labels_varied) console0.

(** An estimator in the manner of sklearn: [fit] records the labels it was
    trained on in the object and returns the object; [predict] answers with
    the number of labels recorded, for every row. *)
#[export] Instance LabelRecorder : Estimator (list Label) Z Z Z := {
  fit := fun _ _ y_train _ => Ok (values y_train, None);
  predict := fun e X => Ok (map (fun _ => Z.of_nat (length e)) X);
  predict_proba := fun e X => Ok (map (fun _ => [0; Z.of_nat (length e)]) X);
  predict_log_proba := fun e X => Ok (map (fun _ => [0; Z.of_nat (length e)]) X)
}.

(** An imputer: [fit] records the first value present in the training rows,
    [transform] puts it where a value is missing. *)
Definition first_present (rows : Series (option Z)) : option Z :=
  hd None (filter (fun v => match v with Some _ => true | None => false end) (values rows)).

#[export] Instance FirstValueImputer : Imputer (option Z) (option Z) := {
  clone_of := fun _ => None;
  fit_imputer := fun _ X_train => Ok (first_present X_train);
  transform := fun fill X =>
    Ok (map (fun v => match v with Some x => Some x | None => fill end) (values X))
}.

(** [PanelSplit(periods6, n_splits=2, gap=0)] *)
Definition built_plain : result t * Console :=
  Eval vm_compute in init periods6 None 2 (Some 0) None None false false None console0.

Definition panel_plain : t := Eval vm_compute in object_of built_plain.

(** Six distinct labels, six feature rows, and a table with gaps. *)
Definition labels_distinct : Series Label :=
  series [Some 0; Some 1; Some 2; Some 3; Some 4; Some 5].

Definition features6 : Series Z := series [10; 11; 12; 13; 14; 15].

Definition gaps6 : Series (option Z) :=
  series [Some 7; None; None; Some 8; None; Some 9].

(** The convention of sklearn: [fit] returns its receiver. *)
Definition fit_returns_self {O Row W V : Type} `{Estimator O Row W V} : Prop :=
  forall e X y sw st r, fit e X y sw = Ok (st, r) -> r = None.

Definition world_plain : World (list Label) :=
  {| panel := {| self := panel_plain; console := console0 |}; heap := [[]] |}.

(** *** Vocabulary of the properties of the folds *)

(** The row-level fold of a period-level fold over a period column. *)
Definition project (ap : Series Period) (f : PeriodFold) : RowFold :=
  (isin ap (fst f), isin ap (snd f)).

(** The whole condition of line 71 for a fold, over the period column [ap]
    with the drop flag [df] and the labels [y] of the call. *)
Definition drop_test (ap : Series Period) (df : bool) (y : option (Series Label))
    (f : PeriodFold) : result bool :=
  if df then empty_or_single_valued (isin ap (fst f)) (isin ap (snd f)) y
  else Ok false.

Definition is_dropped (ap : Series Period) (df : bool) (y : option (Series Label))
    (f : PeriodFold) : bool :=
  match drop_test ap df y f with
  | Ok b => b
  | Raise _ => false
  end.

Definition is_kept (ap : Series Period) (df : bool) (y : option (Series Label))
    (f : PeriodFold) : bool :=
  negb (is_dropped ap df y f).

(** The positions, counted from [i], of the folds the condition holds for. *)
Definition dropped_positions (ap : Series Period) (df : bool)
    (y : option (Series Label)) (i : nat) (folds : list PeriodFold) : list nat :=
  map fst (filter (fun p => is_dropped ap df y (snd p)) (enumerate_from i folds)).

(** No row is selected by both masks of a fold. *)
Definition masks_disjoint (fold : RowFold) : Prop :=
  forall i, nth i (fst fold) false = true -> nth i (snd fold) false = true -> False.

(** No period is named on both sides of a fold. *)
Definition periods_disjoint (f : PeriodFold) : Prop :=
  forall p, In p (fst f) -> In p (snd f) -> False.

(** Every train period of a fold is earlier than every test period. *)
Definition train_before_test (f : PeriodFold) : Prop :=
  forall p q, In p (fst f) -> In q (snd f) -> p < q.

(** The states right after the example constructions. *)
Definition state_flat2 : State :=
  {| self := panel_flat2; console := snd built_flat2 |}.

Definition state_plain : State :=
  {| self := panel_plain; console := console0 |}.

Definition panel_varied : t := Eval vm_compute in object_of built_varied.

Definition state_varied : State :=
  {| self := panel_varied; console := console0 |}.

(** Labels for five rows only. *)
Definition labels_short : Series Label :=
  series [Some 0; Some 1; Some 0; Some 1; Some 0].

(** Every row carries the label [v]. *)
Definition constant_labels (labels : Series Label) (v : Z) : Prop :=
  Forall (fun r => snd r = Some v) labels.

(** A row of the table of predictions without its predicted value: the
    row of the index frame it was made from. *)
Definition without_prediction {IdxRow V : Type} (r : Z * (IdxRow * V)) : Z * IdxRow :=
  (fst r, fst (snd r)).

(** A prediction method that [_predict_fold] knows. *)
Definition supported_method (pm : string) : bool :=
  String.eqb pm "predict" || String.eqb pm "predict_proba"
  || String.eqb pm "predict_log_proba".

(** The period values at a list of positions that are all in range. *)
Definition periods_at (unique_periods : Series Period) (positions : list Z) : list Period :=
  map (fun i => nth (Z.to_nat i) (values unique_periods) 0) positions.

Definition in_range {A} (s : Series A) (i : Z) : Prop :=
  0 <= i < Z.of_nat (length s).

Definition out_of_bounds {A} (s : Series A) (i : Z) : Prop :=
  i < - Z.of_nat (length s) \/ Z.of_nat (length s) <= i.

Definition positional_IndexError : exn :=
  IndexError "positional indexers are out-of-bounds".

(** Two classes of estimators whose methods agree, [fit] being compared on
    label series without missing values only. *)
Definition agree_without_missing {E Row W V : Type}
    (H1 H2 : Estimator E Row W V) : Prop :=
  (forall e X y sw,
     Forall (fun r => snd r <> None) y ->
     @fit _ _ _ _ H1 e X y sw = @fit _ _ _ _ H2 e X y sw) /\
  (forall e X, @predict _ _ _ _ H1 e X = @predict _ _ _ _ H2 e X) /\
  (forall e X, @predict_proba _ _ _ _ H1 e X = @predict_proba _ _ _ _ H2 e X) /\
  (forall e X, @predict_log_proba _ _ _ _ H1 e X = @predict_log_proba _ _ _ _ H2 e X).

(** An estimator like the label recorder, except that [fit] raises when it
    is given a missing label.  It is not registered as an instance: the
    properties that use it name it. *)
Definition StrictRecorder : Estimator (list Label) Z Z Z := {|
  fit := fun _ _ y_train _ =>
    if forallb (fun l => match l with Some _ => true | None => false end)
         (values y_train)
    then Ok (values y_train, None)
    else Raise (ValueError "Input y contains NaN.");
  predict := fun e X => Ok (map (fun _ => Z.of_nat (length e)) X);
  predict_proba := fun e X => Ok (map (fun _ => [0; Z.of_nat (length e)]) X);
  predict_log_proba := fun e X => Ok (map (fun _ => [0; Z.of_nat (length e)]) X)
|}.

(** Labels with a gap in a train row. *)
Definition labels_missing : Series Label :=
  series [Some 0; None; Some 2; Some 3; Some 4; Some 5].

(** ** Reasoning about computations *)

Ltac unfold_monad :=
  unfold global_name, set_all_indices, set_n_splits, print, warn, call_method in *;
  unfold bind, ret, get, modify, raise, lift_result, zoom in *.

Lemma bind_inv {S A B} (c : M S A) (k : A -> M S B) s r s' :
  bind c k s = (r, s') ->
  (exists a s1, c s = (Ok a, s1) /\ k a s1 = (r, s')) \/
  (exists e, c s = (Raise e, s') /\ r = Raise e).
Proof.
  unfold bind. destruct (c s) as [[a | e] s1]; intros H.
  - left. eauto.
  - right. inversion H; subst. eauto.
Qed.

Lemma bind_ok_inv {S A B} (c : M S A) (k : A -> M S B) s b s' :
  bind c k s = (Ok b, s') ->
  exists a s1, c s = (Ok a, s1) /\ k a s1 = (Ok b, s').
Proof.
  intros H. apply bind_inv in H. destruct H as [H | [e [_ H]]]; [exact H | discriminate].
Qed.

Lemma for_each_cons {S A} (x : A) xs (body : A -> M S unit) s :
  for_each (x :: xs) body s =
  match body x s with
  | (Ok _, s') => for_each xs body s'
  | (Raise e, s') => (Raise e, s')
  end.
Proof. reflexivity. Qed.

Lemma enumerate_from_cons {A} i (x : A) xs :
  enumerate_from i (x :: xs) = (i, x) :: enumerate_from (S i) xs.
Proof. reflexivity. Qed.

(** *** The interval selector yields as many folds as were asked for *)

(** The two examples of the documentation of sklearn: six samples with five
    splits, and twelve samples with three splits, a test size of 2 and a
    gap of 2. *)
Example TimeSeriesSplit_six_samples :
  TimeSeriesSplit_split
    {| tss_n_splits := 5; tss_gap := Some 0; tss_test_size := None;
       tss_max_train_size := None |} 6
  = Ok [([0], [1]); ([0; 1], [2]); ([0; 1; 2], [3]); ([0; 1; 2; 3], [4]);
        ([0; 1; 2; 3; 4], [5])].
Proof. reflexivity. Qed.

Example TimeSeriesSplit_gap_and_test_size :
  TimeSeriesSplit_split
    {| tss_n_splits := 3; tss_gap := Some 2; tss_test_size := Some 2;
       tss_max_train_size := None |} 12
  = Ok [([0; 1; 2; 3], [6; 7]); ([0; 1; 2; 3; 4; 5], [8; 9]);
        ([0; 1; 2; 3; 4; 5; 6; 7], [10; 11])].
Proof. reflexivity. Qed.

Lemma range_length start stop step l :
  range start stop step = Ok l ->
  length l = Z.to_nat (range_len start stop step).
Proof.
  unfold range. destruct (step =? 0); [discriminate |].
  intros H. inversion H. now rewrite length_map, length_seq.
Qed.

Lemma range_len_test_starts n_samples n_splits test_size :
  1 < n_splits -> test_size <> 0 ->
  range_len (n_samples - n_splits * test_size) n_samples test_size = n_splits.
Proof.
  intros Hn Hts. unfold range_len.
  destruct (Z.ltb_spec 0 test_size) as [Hpos | Hneg].
  - destruct (Z.ltb_spec (n_samples - n_splits * test_size) n_samples) as [_ | Hc]; [| nia].
    replace (n_samples - (n_samples - n_splits * test_size) - 1)
      with ((n_splits - 1) * test_size + (test_size - 1)) by lia.
    rewrite Z.div_add_l by lia. rewrite Z.div_small by lia. lia.
  - destruct (Z.ltb_spec n_samples (n_samples - n_splits * test_size)) as [_ | Hc]; [| nia].
    replace (n_samples - n_splits * test_size - n_samples - 1)
      with ((n_splits - 1) * (- test_size) + (- test_size - 1)) by lia.
    rewrite Z.div_add_l by lia. rewrite Z.div_small by lia. lia.
Qed.

Lemma TimeSeriesSplit_init_ok n gap ts mts t :
  TimeSeriesSplit_init n gap ts mts = Ok t ->
  1 < n /\ tss_n_splits t = n.
Proof.
  unfold TimeSeriesSplit_init. destruct (Z.leb_spec n 1) as [| Hn]; [discriminate |].
  intros Hok. inversion Hok. simpl. lia.
Qed.

Lemma TimeSeriesSplit_split_length t n_samples pairs :
  1 < tss_n_splits t ->
  TimeSeriesSplit_split t n_samples = Ok pairs ->
  Z.of_nat (length pairs) = tss_n_splits t /\ tss_n_splits t < n_samples.
Proof.
  intros Hn. unfold TimeSeriesSplit_split.
  destruct (Z.ltb_spec n_samples (tss_n_splits t + 1)) as [| Hfolds]; [discriminate |].
  destruct (tss_gap t) as [gap |]; [| discriminate].
  match goal with |- context [if ?c then _ else _] => destruct c end; [discriminate |].
  match goal with |- context [range ?a ?b ?c] => destruct (range a b c) as [starts | e] eqn:Hr end;
    [| discriminate].
  intros Hok. inversion Hok. rewrite length_map.
  assert (Hstep : match tss_test_size t with
                  | Some ts => ts
                  | None => n_samples / (tss_n_splits t + 1)
                  end <> 0).
  { intros Hz. unfold range in Hr. rewrite Hz in Hr. discriminate. }
  rewrite (range_length _ _ _ Hr), range_len_test_starts by assumption.
  lia.
Qed.

Lemma split_unique_periods_loop_length pairs up folds :
  split_unique_periods_loop pairs up = Ok folds ->
  length folds = length pairs.
Proof.
  revert folds. induction pairs as [| [tr te] rest IH]; intros folds; simpl.
  - intros H. now inversion H.
  - destruct (iloc_values up tr); [| discriminate].
    destruct (iloc_values up te); [| discriminate].
    destruct (split_unique_periods_loop rest up); [| discriminate].
    intros H. inversion H. simpl. f_equal. now apply IH.
Qed.

Lemma of_values_length {A} (vs : list A) : length (of_values vs) = length vs.
Proof.
  unfold of_values. rewrite length_combine, length_map, length_seq. apply Nat.min_id.
Qed.

Lemma of_values_values {A} (vs : list A) : values (of_values vs) = vs.
Proof.
  unfold of_values, values.
  assert (H : forall (ks : list Z), length ks = length vs -> map snd (combine ks vs) = vs).
  { induction vs as [| v vs IH]; intros [| k ks] Hl; simpl in *; try discriminate; auto.
    f_equal. apply IH. lia. }
  apply H. now rewrite length_map, length_seq.
Qed.

Lemma insert_row_length {A} (r : Z * A) key s :
  length (insert_row r key s) = S (length s).
Proof.
  induction s as [| r' s IH]; simpl; auto.
  destruct (key (snd r) <=? key (snd r')); simpl; auto.
Qed.

Lemma sort_values_length s : length (sort_values s) = length s.
Proof.
  induction s as [| r s IH]; simpl; auto.
  now rewrite insert_row_length, IH.
Qed.

Lemma default_unique_periods_nonempty tp :
  (0 < length (default_unique_periods tp))%nat -> (0 < length tp)%nat.
Proof.
  unfold default_unique_periods, unique, values.
  rewrite sort_values_length, of_values_length.
  destruct tp; simpl; lia.
Qed.

(** What [period_folds] hands over when it returns: no override was given,
    the sequence is the default one, the selector is built from the
    arguments, there is one period-level fold per requested split, the
    period column has rows, and the console is untouched. *)
Lemma period_folds_ok tp up n gap ts mts c u t folds c' :
  period_folds tp up n gap ts mts c = (Ok (u, t, folds), c') ->
  up = None /\ u = default_unique_periods tp /\ c' = c /\
  TimeSeriesSplit_init n gap ts mts = Ok t /\
  1 < n /\ Z.of_nat (length folds) = n /\ (0 < length tp)%nat.
Proof.
  unfold period_folds. intros H.
  destruct up as [s |]; [unfold_monad; simpl in H; discriminate |].
  unfold_monad. simpl in H.
  destruct (TimeSeriesSplit_init n gap ts mts) as [t0 | e] eqn:Ht; [| discriminate].
  destruct (TimeSeriesSplit_init_ok _ _ _ _ Ht) as [Hn Hn'].
  destruct (split_unique_periods _ _) as [fs | e] eqn:Hs; [| discriminate].
  inversion H; subst u t0 fs c'. clear H.
  unfold split_unique_periods in Hs.
  destruct (TimeSeriesSplit_split t _) as [pairs | e] eqn:Hp; [| discriminate].
  apply split_unique_periods_loop_length in Hs.
  apply TimeSeriesSplit_split_length in Hp; [| lia].
  destruct Hp as [Hlen Hsamples].
  repeat split; auto; try lia.
  apply default_unique_periods_nonempty.
  unfold reset_index_drop in Hsamples.
  rewrite of_values_length in Hsamples. unfold values in Hsamples.
  rewrite length_map in Hsamples. lia.
Qed.

(** *** What a pass of [split] changes *)

Lemma same_config_refl a : same_config a a.
Proof. repeat split. Qed.

Lemma same_config_trans a b c : same_config a b -> same_config b c -> same_config a c.
Proof.
  unfold same_config. intros (H1 & H2 & H3 & H4) (K1 & K2 & K3 & K4).
  repeat split; congruence.
Qed.

Lemma split_body_spec y init fold s r s' :
  split_body y init fold s = (r, s') ->
  same_config (self s) (self s') /\
  (length (stdout (console s)) <= length (stdout (console s')))%nat /\
  (init = false -> n_splits (self s') = n_splits (self s) /\ console s' = console s) /\
  (init = true -> r = Ok tt ->
   balance s' = balance s - 1 /\ tally s' = tally s).
Proof.
  destruct fold as [i [trp tep]]. unfold split_body, balance, tally.
  unfold_monad. simpl.
  destruct (drop_folds (self s)).
  - destruct (empty_or_single_valued _ _ y) as [[|] | e]; [destruct init | |];
      intros H; inversion H; subst; clear H; simpl;
      (split; [apply same_config_refl || (repeat split) |]);
      rewrite ?length_app; simpl; repeat split; try discriminate; try lia.
  - intros H; inversion H; subst; clear H; simpl.
    split; [repeat split |].
    rewrite ?length_app; simpl; repeat split; try discriminate; try lia.
Qed.

Lemma split_loop_spec y init folds : forall i s r s',
  for_each (enumerate_from i folds) (split_body y init) s = (r, s') ->
  same_config (self s) (self s') /\
  (length (stdout (console s)) <= length (stdout (console s')))%nat /\
  (init = false -> n_splits (self s') = n_splits (self s) /\ console s' = console s) /\
  (init = true -> r = Ok tt ->
   balance s' = balance s - Z.of_nat (length folds) /\ tally s' = tally s).
Proof.
  induction folds as [| f folds IH]; intros i s r s' H;
    cbn [enumerate_from for_each] in H.
  - unfold ret in H. inversion H; subst.
    repeat split; simpl; lia.
  - apply bind_inv in H. destruct H as [(a & s1 & Hb & Hk) | (e & Hb & ->)].
    + apply split_body_spec in Hb. apply IH in Hk.
      destruct Hb as (B1 & B2 & B3 & B4), Hk as (K1 & K2 & K3 & K4).
      split; [eapply same_config_trans; eauto |].
      split; [lia |]. split.
      * intros ->. destruct (B3 eq_refl) as [E1 E2], (K3 eq_refl) as [E3 E4].
        split; congruence.
      * intros -> ->. destruct a.
        destruct (B4 eq_refl eq_refl) as [E1 E2], (K4 eq_refl eq_refl) as [E3 E4].
        simpl length. split; lia.
    + apply split_body_spec in Hb. destruct Hb as (B1 & B2 & B3 & B4).
      split; [exact B1 |]. split; [exact B2 |]. split; [exact B3 |].
      intros _ Hr; discriminate.
Qed.

Lemma split_spec {XT GT} (X : option XT) y (groups : option GT) init s r s' :
  split X y groups init s = (r, s') ->
  same_config (self s) (self s') /\
  (length (stdout (console s)) <= length (stdout (console s')))%nat /\
  (init = false -> n_splits (self s') = n_splits (self s) /\ console s' = console s) /\
  (forall folds, init = true -> r = Ok folds ->
   folds = all_indices (self s') /\
   n_splits (self s') - Z.of_nat (length (all_indices (self s')))
     = n_splits (self s) - Z.of_nat (length (u_periods_cv (self s))) /\
   tally s' = tally s).
Proof.
  unfold split, enumerate. intros H.
  apply bind_inv in H. destruct H as [(a & s1 & Hb & Hk) | (e & Hb & _)];
    [| unfold_monad; discriminate].
  unfold set_all_indices, modify in Hb. inversion Hb; subst a s1. clear Hb.
  apply bind_inv in Hk. destruct Hk as [(s2 & s3 & Hg & Hk) | (e & Hb & _)];
    [| unfold_monad; discriminate].
  unfold get in Hg. inversion Hg; subst s2 s3. clear Hg. simpl in Hk.
  apply bind_inv in Hk. destruct Hk as [([] & s4 & Hl & Hk) | (e & Hl & ->)].
  - apply split_loop_spec in Hl. simpl in Hl.
    destruct Hl as (L1 & L2 & L3 & L4).
    unfold_monad. inversion Hk; subst r s4. clear Hk.
    split; [exact L1 |]. split; [exact L2 |]. split; [exact L3 |].
    intros folds -> Hf. inversion Hf; subst folds.
    destruct (L4 eq_refl eq_refl) as [E1 E2].
    unfold balance, tally in *. simpl in *. repeat split; try lia.
  - apply split_loop_spec in Hl. simpl in Hl.
    destruct Hl as (L1 & L2 & L3 & L4).
    split; [exact L1 |]. split; [exact L2 |]. split; [exact L3 |].
    intros folds _ Hf. discriminate.
Qed.

(** What a successful construction establishes. *)
Lemma init_ok tp up n gap ts mts plot df y c ps c' :
  init tp up n gap ts mts plot df y c = (Ok ps, c') ->
  up = None /\ 1 < n /\ Z.of_nat (length (u_periods_cv ps)) = n /\
  all_periods ps = tp /\ drop_folds ps = df /\ (0 < length tp)%nat /\
  (df = true -> y <> None) /\ (df = false -> y = None) /\
  n_splits ps = Z.of_nat (length (all_indices ps)) /\
  n_splits ps + Z.of_nat (length (stdout c')) = n + Z.of_nat (length (stdout c)) /\
  (length (stdout c) <= length (stdout c'))%nat.
Proof.
  unfold init. intros H.
  apply bind_ok_inv in H. destruct H as ([[u t0] folds] & c1 & Hpf & H).
  apply period_folds_ok in Hpf.
  destruct Hpf as (-> & -> & -> & Ht & Hn & Hlen & Hrows).
  apply bind_ok_inv in H. destruct H as ([] & c2 & Hw & H).
  assert (Hy : c2 = c /\ (df = false -> y = None)).
  { destruct y, df; unfold_monad; simpl in Hw; try discriminate;
      inversion Hw; split; auto; discriminate. }
  destruct Hy as [-> Hy].
  apply bind_ok_inv in H. destruct H as ([] & c3 & Hm & H).
  assert (Hy' : c3 = c /\ (df = true -> y <> None)).
  { destruct y, df; unfold_monad; simpl in Hm; try discriminate;
      inversion Hm; split; auto; discriminate. }
  destruct Hy' as [-> Hy'].
  apply bind_ok_inv in H. destruct H as ([rf obj] & c4 & Hs & H).
  unfold call_method in Hs.
  match type of Hs with
  | match ?call with _ => _ end = _ => destruct call as [[a | e] s'] eqn:Hsplit
  end; [| discriminate].
  inversion Hs; subst rf obj c4. clear Hs.
  apply split_spec in Hsplit. simpl in Hsplit.
  destruct Hsplit as ((S1 & S2 & S3 & S4) & L & _ & Hcount).
  destruct (Hcount a eq_refl eq_refl) as (_ & Hbal & Htally).
  unfold tally in Htally. simpl in Htally, Hbal, H.
  assert (Hps : ps = self s' /\ c' = console s').
  { destruct plot; unfold_monad; simpl in H; inversion H; auto. }
  destruct Hps as [-> ->].
  rewrite <- S2, <- S3, <- S4. simpl in L.
  repeat split; auto; lia.
Qed.

(** *** Later calls *)


(** The result of a pass depends on the period column, the period-level
    folds and the drop flag only. *)
Lemma split_loop_same_result y init folds : forall i s1 s2,
  same_config (self s1) (self s2) ->
  all_indices (self s1) = all_indices (self s2) ->
  let o1 := for_each (enumerate_from i folds) (split_body y init) s1 in
  let o2 := for_each (enumerate_from i folds) (split_body y init) s2 in
  fst o1 = fst o2 /\ all_indices (self (snd o1)) = all_indices (self (snd o2)).
Proof.
  induction folds as [| [trp tep] folds IH]; intros i s1 s2 Hc Ha.
  - simpl. auto.
  - destruct Hc as (C1 & C2 & C3 & C4).
    cbv zeta. rewrite enumerate_from_cons, !for_each_cons.
    destruct (split_body y init _ s1) as [r1 t1] eqn:H1.
    destruct (split_body y init _ s2) as [r2 t2] eqn:H2.
    assert (Hr : r1 = r2 /\ all_indices (self t1) = all_indices (self t2)).
    { unfold split_body in H1, H2. unfold_monad. simpl in H1, H2.
      rewrite <- C3, <- C4 in H2.
      destruct (drop_folds (self s1)).
      - destruct (empty_or_single_valued _ _ y) as [[|] | e]; [destruct init | |];
          inversion H1; inversion H2; subst; simpl; rewrite ?Ha; auto.
      - inversion H1; inversion H2; subst; simpl; rewrite ?Ha; auto. }
    destruct Hr as [<- Ht].
    apply split_body_spec in H1, H2.
    destruct r1 as [[] | e]; cbv beta iota.
    + apply (IH (S i) t1 t2); auto.
      destruct H1 as ((A1 & A2 & A3 & A4) & _), H2 as ((B1 & B2 & B3 & B4) & _).
      repeat split; congruence.
    + auto.
Qed.

Lemma split_same_result {XT GT} (X : option XT) y (groups : option GT) init s1 s2 :
  same_config (self s1) (self s2) ->
  fst (split X y groups init s1) = fst (split X y groups init s2).
Proof.
  intros Hc. unfold split, enumerate.
  unfold bind at 1 4, set_all_indices at 1 2, modify.
  unfold bind at 1 3, get at 1 3. cbn [self u_periods_cv].
  pose proof Hc as (C1 & C2 & C3 & C4). rewrite <- C2.
  match goal with
  | |- fst (bind ?l1 _ _) = fst (bind ?l2 _ _) =>
      pose proof (split_loop_same_result y init (u_periods_cv (self s1)) 0%nat
                    {| self := {| tss := tss (self s1);
                                  u_periods_cv := u_periods_cv (self s1);
                                  all_periods := all_periods (self s1);
                                  drop_folds := drop_folds (self s1);
                                  n_splits := n_splits (self s1);
                                  all_indices := [] |};
                       console := console s1 |}
                    {| self := {| tss := tss (self s2);
                                  u_periods_cv := u_periods_cv (self s2);
                                  all_periods := all_periods (self s2);
                                  drop_folds := drop_folds (self s2);
                                  n_splits := n_splits (self s2);
                                  all_indices := [] |};
                       console := console s2 |}) as Hl
  end.
  simpl in Hl. specialize (Hl Hc eq_refl). destruct Hl as [L1 L2].
  unfold bind.
  rewrite <- C2 in L1, L2.
  destruct (for_each _ _ _) as [r1 t1]; destruct (for_each _ _ _) as [r2 t2].
  simpl in L1, L2. subst r2. destruct r1; simpl; auto.
  unfold_monad. simpl. now rewrite L2.
Qed.

(** ** Split count *)




(** ** Arguments that are not read *)

(** C10. [split] does not read [X] or [groups] and [get_n_splits] reads none
    of its arguments: two calls of [split] in the same state that differ in
    [X] and [groups] only give the same outcome (the same masks or the same
    exception) and leave the same state, and [get_n_splits] gives the same
    count whatever it is passed. *)
Theorem split_ignores_X_and_groups
    (XT1 XT2 GT1 GT2 YT1 YT2 : Type)
    (X1 : option XT1) (X2 : option XT2) (groups1 : option GT1) (groups2 : option GT2)
    (y : option (Series Label)) (y1 : option YT1) (y2 : option YT2)
    (init : bool) (s : State) :
  split X1 y groups1 init s = split X2 y groups2 init s /\
  get_n_splits X1 y1 groups1 s = get_n_splits X2 y2 groups2 s.
Proof. split; reflexivity. Qed.

(** ** The unique-period sequence *)

Lemma unique_values_In vs x : In x (unique_values vs) <-> In x vs.
Proof.
  induction vs as [| v vs IH]; simpl; [tauto |].
  rewrite filter_In, IH.
  destruct (Z.eqb_spec x v) as [-> | Hne]; simpl; intuition congruence.
Qed.

Lemma NoDup_filter {A} (f : A -> bool) l : NoDup l -> NoDup (filter f l).
Proof.
  induction 1 as [| x l Hx Hl IH]; simpl; [constructor |].
  destruct (f x); auto. constructor; auto.
  rewrite filter_In. tauto.
Qed.

Lemma unique_values_NoDup vs : NoDup (unique_values vs).
Proof.
  induction vs as [| v vs IH]; simpl; constructor.
  - rewrite filter_In. intros [_ H]. rewrite Z.eqb_refl in H. discriminate.
  - now apply NoDup_filter.
Qed.

Lemma insert_row_perm (r : Z * Z) s :
  Permutation (r :: s) (insert_row r (fun v => v) s).
Proof.
  induction s as [| r' s IH]; simpl; auto.
  destruct (snd r <=? snd r'); auto.
  rewrite perm_swap. now constructor.
Qed.

Lemma sort_values_perm s : Permutation s (sort_values s).
Proof.
  induction s as [| r s IH]; simpl; auto.
  rewrite <- insert_row_perm. now constructor.
Qed.

Lemma insert_row_sorted (r : Z * Z) s :
  StronglySorted Z.le (values s) ->
  StronglySorted Z.le (values (insert_row r (fun v => v) s)).
Proof.
  unfold values. induction s as [| r' s IH]; simpl; intros Hs.
  - repeat constructor.
  - apply StronglySorted_inv in Hs. destruct Hs as [Hs Hall].
    destruct (Z.leb_spec (snd r) (snd r')) as [Hle | Hgt]; simpl.
    + constructor; [constructor; auto |].
      constructor; auto.
      eapply Forall_impl; [| exact Hall]. simpl. intros; lia.
    + constructor; auto.
      eapply Permutation_Forall.
      * change (snd r :: map snd s) with (map snd (r :: s)).
        apply Permutation_map, insert_row_perm.
      * constructor; [lia | exact Hall].
Qed.

Lemma sort_values_sorted s : StronglySorted Z.le (values (sort_values s)).
Proof.
  induction s as [| r s IH]; simpl; [constructor |].
  now apply insert_row_sorted.
Qed.

Lemma sorted_NoDup_strict l :
  StronglySorted Z.le l -> NoDup l -> strictly_ascending l.
Proof.
  unfold strictly_ascending.
  induction l as [| x l IH]; intros Hs Hn; [constructor |].
  apply StronglySorted_inv in Hs. destruct Hs as [Hs Hall].
  inversion Hn as [| ? ? Hx Hn']; subst.
  constructor; auto.
  rewrite Forall_forall in *. intros z Hz.
  specialize (Hall z Hz). assert (z <> x) by (intros ->; auto). lia.
Qed.

Lemma strictly_ascending_NoDup l : strictly_ascending l -> NoDup l.
Proof.
  unfold strictly_ascending.
  induction l as [| x l IH]; intros Hs; constructor;
    apply StronglySorted_inv in Hs; destruct Hs as [Hs Hall]; auto.
  rewrite Forall_forall in Hall. intros Hx. specialize (Hall x Hx). lia.
Qed.

(** A strictly ascending list is determined by its elements. *)
Lemma strictly_ascending_unique l1 : forall l2,
  strictly_ascending l1 -> strictly_ascending l2 ->
  (forall x, In x l1 <-> In x l2) -> l1 = l2.
Proof.
  unfold strictly_ascending.
  induction l1 as [| a l1 IH]; intros [| b l2] H1 H2 Hin; auto.
  - destruct (proj2 (Hin b)); simpl; auto.
  - destruct (proj1 (Hin a)); simpl; auto.
  - apply StronglySorted_inv in H1, H2.
    destruct H1 as [H1 A1], H2 as [H2 A2].
    rewrite Forall_forall in A1, A2.
    assert (a = b).
    { destruct (proj1 (Hin a) (or_introl eq_refl)) as [-> | Ha]; auto.
      destruct (proj2 (Hin b) (or_introl eq_refl)) as [-> | Hb]; auto.
      specialize (A1 b Hb). specialize (A2 a Ha). lia. }
    subst b. f_equal. apply IH; auto.
    intros x. split; intros Hx.
    + destruct (proj1 (Hin x) (or_intror Hx)) as [-> | ?]; auto.
      specialize (A1 _ Hx). lia.
    + destruct (proj2 (Hin x) (or_intror Hx)) as [-> | ?]; auto.
      specialize (A2 _ Hx). lia.
Qed.

Lemma sorted_distinct_values_strict vs : strictly_ascending (sorted_distinct_values vs).
Proof.
  unfold sorted_distinct_values. apply sorted_NoDup_strict.
  - pose proof (ZSort.StronglySorted_sort (nodup Z.eq_dec vs) ZLeb.leb_trans) as H.
    induction H as [| a l _ IH Hall]; constructor; auto.
    eapply Forall_impl; [| exact Hall].
    intros z Hz. now apply ZLeb.leb_le.
  - eapply Permutation_NoDup; [apply ZSort.Permuted_sort |].
    apply NoDup_nodup.
Qed.

Lemma sorted_distinct_values_In vs x : In x (sorted_distinct_values vs) <-> In x vs.
Proof.
  unfold sorted_distinct_values. rewrite <- (nodup_In Z.eq_dec vs x).
  split; apply Permutation_in;
    [symmetry |]; apply ZSort.Permuted_sort.
Qed.

Lemma default_unique_periods_In tp x :
  In x (values (default_unique_periods tp)) <-> In x (values tp).
Proof.
  unfold default_unique_periods, unique.
  rewrite <- (unique_values_In (values tp) x).
  rewrite <- (of_values_values (unique_values (values tp))) at 2.
  unfold values at 1 3.
  split; apply Permutation_in; apply Permutation_map;
    [symmetry |]; apply sort_values_perm.
Qed.

Lemma default_unique_periods_strict tp :
  strictly_ascending (values (default_unique_periods tp)).
Proof.
  apply sorted_NoDup_strict.
  - apply sort_values_sorted.
  - unfold default_unique_periods, unique.
    eapply Permutation_NoDup.
    + unfold values at 1. apply Permutation_map, sort_values_perm.
    + fold (values (of_values (unique_values (values tp)))).
      rewrite of_values_values. apply unique_values_NoDup.
Qed.

(** C4. With no override, the unique-period sequence the constructor
    computes from a period column is strictly ascending, has no duplicates
    and is the sorted distinct values of the column; it is the sequence the
    constructor hands to the interval selector whenever its first steps
    return. *)
Theorem unique_periods_sorted_distinct (train_periods : Series Period) :
  let u := values (default_unique_periods train_periods) in
  strictly_ascending u /\ NoDup u /\
  u = sorted_distinct_values (values train_periods) /\
  forall n gap ts mts c,
    match fst (period_folds train_periods None n gap ts mts c) with
    | Ok (used, _, _) => used = default_unique_periods train_periods
    | Raise _ => True
    end.
Proof.
  cbv zeta. split; [apply default_unique_periods_strict |].
  split; [apply strictly_ascending_NoDup, default_unique_periods_strict |].
  split.
  - apply strictly_ascending_unique.
    + apply default_unique_periods_strict.
    + apply sorted_distinct_values_strict.
    + intros x. now rewrite default_unique_periods_In, sorted_distinct_values_In.
  - intros n gap ts mts c.
    destruct (period_folds train_periods None n gap ts mts c) as [[[[u t0] f] | e] c'] eqn:H;
      simpl; auto.
    apply period_folds_ok in H. tauto.
Qed.

(** ** Construction: overrides, labels and the drop flag *)

(** How a construction ends once lines 23 to 27 are behind it. *)
Lemma init_after_period_folds tp up n gap ts mts plot df y c :
  match period_folds tp up n gap ts mts c with
  | (Raise e, c') => init tp up n gap ts mts plot df y c = (Raise e, c')
  | (Ok _, _) =>
      match y, df with
      | Some _, false => init tp up n gap ts mts plot df y c = (Raise (NameError "warnings"), c)
      | None, true => init tp up n gap ts mts plot df y c = (Raise missing_labels_error, c)
      | _, _ => True
      end
  end.
Proof.
  destruct (period_folds tp up n gap ts mts c) as [[[[u t0] f] | e] c'] eqn:H.
  - pose proof (period_folds_ok _ _ _ _ _ _ _ H) as (_ & _ & -> & _).
    destruct y, df; auto; unfold init, bind at 1; rewrite H; reflexivity.
  - unfold init, bind at 1. now rewrite H.
Qed.

(** C5. An explicit unique-period sequence never gets as far as the
    interval selector: the test [unique_periods == None] compares the
    supplied Series element by element, the [if] asks for the truth value of
    the resulting Series, and pandas raises.  Every construction with an
    override raises that error and builds no object. *)
Theorem init_with_unique_periods_raises
    tp (supplied : Series Period) n gap ts mts plot df y c :
  init tp (Some supplied) n gap ts mts plot df y c = (Raise ambiguous_truth_value, c).
Proof. reflexivity. Qed.

(** C6. A label series with [drop_folds] disabled: the name [warnings] is
    not bound in the module, so the statement that should emit the warning
    raises [NameError].  Every such construction raises, emits no warning
    and builds no object: it raises what lines 23 to 27 raise when they do,
    and [NameError] otherwise. *)
Theorem init_with_labels_without_drop_folds_raises
    tp up n gap ts mts plot (labels : Series Label) c :
  let out := init tp up n gap ts mts plot false (Some labels) c in
  is_ok (fst out) = false /\
  warnings_log (snd out) = warnings_log c /\
  match fst (period_folds tp up n gap ts mts c) with
  | Ok _ => out = (Raise (NameError "warnings"), c)
  | Raise e => fst out = Raise e
  end.
Proof.
  cbv zeta.
  pose proof (init_after_period_folds tp up n gap ts mts plot false (Some labels) c) as H.
  destruct (period_folds tp up n gap ts mts c) as [[[[u t0] f] | e] c'] eqn:Hp;
    rewrite H; simpl; auto.
  repeat split.
  unfold period_folds in Hp. unfold_monad.
  destruct up; simpl in Hp; [inversion Hp; auto |].
  destruct (TimeSeriesSplit_init n gap ts mts); [| inversion Hp; auto].
  destruct (split_unique_periods _ _); inversion Hp; auto.
Qed.

(** The call [PanelSplit(periods6, n_splits=2, gap=0, y=labels_varied)]. *)
Example init_with_labels_NameError :
  init periods6 None 2 (Some 0) None None false false (Some labels_varied) console0
  = (Raise (NameError "warnings"), console0).
Proof. reflexivity. Qed.

(** C7, as stated, fails: with one period and five splits the selector
    raises before the labels are looked at, and the error is the
    selector's. *)
Lemma init_without_labels_counterexample :
  fst (init (series [1]) None 5 (Some 0) None None false true None console0)
  = Raise (ValueError "Cannot have number of folds=6 greater than the number of samples=1.")
  /\ fst (init (series [1]) None 5 (Some 0) None None false true None console0)
     <> Raise missing_labels_error.
Proof. split; [reflexivity | vm_compute; discriminate]. Qed.

(** C7, amended. With [drop_folds] enabled and no labels, construction
    always raises and builds no object; the error is the one that names the
    missing labels whenever lines 23 to 27 (unique periods, selector,
    period-level folds) return, and the error of those lines otherwise. *)
Theorem init_without_labels_raises tp up n gap ts mts plot c :
  let out := init tp up n gap ts mts plot true None c in
  is_ok (fst out) = false /\
  match fst (period_folds tp up n gap ts mts c) with
  | Ok _ => out = (Raise missing_labels_error, c)
  | Raise e => fst out = Raise e
  end.
Proof.
  cbv zeta.
  pose proof (init_after_period_folds tp up n gap ts mts plot true None c) as H.
  destruct (period_folds tp up n gap ts mts c) as [[[[u t0] f] | e] c'] eqn:Hp;
    rewrite H; simpl; auto.
Qed.

(** The call [PanelSplit(periods6, n_splits=2, gap=0, drop_folds=True)]. *)
Example init_without_labels_ValueError :
  init periods6 None 2 (Some 0) None None false true None console0
  = (Raise (ValueError "Cannot drop folds without specifying y values."), console0).
Proof. reflexivity. Qed.

(** ** The validity filter *)

Lemma isin_length s vals : length (isin s vals) = length s.
Proof. unfold isin, values. now rewrite !length_map. Qed.

(** With the drop flag set, a pass of [split] that is given no labels raises
    at the first fold: the masks have one entry per row, so the test on
    their lengths fails and [y.loc] is looked up on [None]. *)
Lemma split_without_labels_raises {XT GT} (X : option XT) (groups : option GT) init ps c :
  drop_folds ps = true -> u_periods_cv ps <> [] -> (0 < length (all_periods ps))%nat ->
  fst (split X None groups init {| self := ps; console := c |})
  = Raise (AttributeError "'NoneType' object has no attribute 'loc'").
Proof.
  intros Hd Hu Hrows. unfold split, enumerate.
  destruct (u_periods_cv ps) as [| [trp tep] rest] eqn:Hf; [congruence |].
  unfold bind at 1, set_all_indices, modify.
  unfold bind at 1, get at 1. cbn [self u_periods_cv]. rewrite Hf.
  unfold bind at 1. rewrite enumerate_from_cons, for_each_cons.
  unfold split_body. unfold_monad. cbn [self all_periods drop_folds]. rewrite Hd.
  unfold empty_or_single_valued. rewrite !isin_length.
  destruct (length (all_periods ps)); [lia |]. reflexivity.
Qed.

Lemma split_after_init_without_labels tp up n gap ts mts plot y c ps c' :
  init tp up n gap ts mts plot true y c = (Ok ps, c') ->
  fst (split (XT:=unit) (GT:=unit) None None None false {| self := ps; console := c' |})
  = Raise (AttributeError "'NoneType' object has no attribute 'loc'").
Proof.
  intros H. apply init_ok in H.
  destruct H as (_ & Hn & Hu & Hp & Hd & Hrows & _).
  apply split_without_labels_raises; auto.
  - intros E. rewrite E in Hu. simpl in Hu. lia.
  - now rewrite Hp.
Qed.

(** C2. The labels given to the constructor are not kept: a later [split]
    works on the [y] of its own call.  For the object built from
    [labels_varied], which keeps both folds, [split()] raises
    [AttributeError] on its default [y=None], and [split(y=labels_constant)]
    returns no fold at all, two folds being what the labels of the
    construction give. *)
Theorem split_after_construction_uses_call_labels :
  exists ps c',
    init periods6 None 2 (Some 0) None None false true (Some labels_varied) console0
    = (Ok ps, c') /\
    length (all_indices ps) = 2%nat /\
    fst (split (XT:=unit) (GT:=unit) None None None false {| self := ps; console := c' |})
    = Raise (AttributeError "'NoneType' object has no attribute 'loc'") /\
    fst (split (XT:=unit) (GT:=unit) None (Some labels_constant) None false
           {| self := ps; console := c' |})
    = Ok [].
Proof.
  destruct built_varied as [[ps | e] c'] eqn:H; [| discriminate].
  exists ps, c'. split; [exact H |].
  inversion H; subst. repeat split; reflexivity.
Qed.

Lemma select_mask_none {A} (rows : list A) mask :
  count_true mask = 0%nat -> select_mask rows mask = [].
Proof.
  unfold count_true. revert rows.
  induction mask as [| b mask IH]; intros [| r rows] H; simpl in *; auto.
  destruct b; simpl in H; [discriminate | auto].
Qed.

(** A fold whose train mask selects no row, over a table that has rows, is
    not seen as empty: the condition of line 71 is false for it unless the
    labels of its test rows have exactly one value. *)
Lemma unselected_train_rows_not_empty train test labels y_test :
  count_true train = 0%nat ->
  length train = length labels -> length test = length labels ->
  (0 < length labels)%nat ->
  loc_mask labels test = Ok y_test -> nunique y_test <> 1 ->
  empty_or_single_valued train test (Some labels) = Ok false.
Proof.
  intros Hc Htr Hte Hrows Hy Hn. unfold empty_or_single_valued.
  rewrite Htr, Hte. destruct (length labels) eqn:Hl; [lia |]. simpl.
  unfold loc_mask at 1. rewrite Htr, Hl, Nat.eqb_refl.
  rewrite select_mask_none by assumption. cbn.
  rewrite Hy. destruct (Z.eqb_spec (nunique y_test) 1); congruence.
Qed.

(** C3. A fold that selects no train row is kept.  In
    [PanelSplit(periods6, n_splits=2, gap=0, max_train_size=-1,
    drop_folds=True, y=labels_varied)] the selector yields two folds with no
    train position; their train masks are all False, yet both folds are
    collected, the split count stays 2 and nothing is printed. *)
Theorem unselected_train_rows_fold_kept :
  exists ps c',
    init periods6 None 2 (Some 0) None (Some (-1)) false true (Some labels_varied) console0
    = (Ok ps, c') /\
    u_periods_cv ps = [([], [2]); ([], [3])] /\
    map (fun fold => count_true (fst fold)) (all_indices ps) = [0%nat; 0%nat] /\
    length (all_indices ps) = 2%nat /\
    n_splits ps = 2 /\
    stdout c' = [].
Proof.
  eexists. eexists. split; [vm_compute; reflexivity |].
  repeat split; reflexivity.
Qed.

(** ** The appliers *)

Lemma lift_panel_run {O A} (m : M State A) (w : World O) :
  lift_panel m w = (fst (m (panel w)), {| panel := snd (m (panel w)); heap := heap w |}).
Proof. unfold lift_panel, zoom. now destruct (m (panel w)). Qed.

Lemma fold_each_cons {S A B} (x : A) xs (acc : B) (body : B -> A -> M S B) s :
  fold_each (x :: xs) acc body s =
  match body acc x s with
  | (Ok acc', s') => fold_each xs acc' body s'
  | (Raise e, s') => (Raise e, s')
  end.
Proof. reflexivity. Qed.

(** Without the drop flag a pass of [split] returns one row-level fold per
    period-level fold, whatever it is given. *)
Lemma split_loop_no_drop y init folds : forall i s,
  drop_folds (self s) = false ->
  exists s',
    for_each (enumerate_from i folds) (split_body y init) s = (Ok tt, s') /\
    same_config (self s) (self s') /\
    length (all_indices (self s')) = (length (all_indices (self s)) + length folds)%nat.
Proof.
  induction folds as [| [trp tep] folds IH]; intros i s Hd.
  - exists s. simpl. repeat split. lia.
  - rewrite enumerate_from_cons, for_each_cons.
    destruct (split_body y init _ s) as [r s1] eqn:Hb.
    pose proof (split_body_spec _ _ _ _ Hb) as (Hc & _).
    assert (Hr : r = Ok tt /\
                 length (all_indices (self s1)) = S (length (all_indices (self s)))).
    { unfold split_body in Hb. unfold_monad. simpl in Hb. rewrite Hd in Hb.
      inversion Hb. simpl. rewrite length_app. simpl. split; [reflexivity | lia]. }
    destruct Hr as [-> Hlen1].
    destruct (IH (S i) s1) as (s' & Hl & Hc' & Hlen).
    { destruct Hc as (_ & _ & _ & <-). exact Hd. }
    exists s'. split; [exact Hl |]. split; [eapply same_config_trans; eauto |].
    rewrite Hlen, Hlen1. simpl. lia.
Qed.

Lemma split_no_drop {XT GT} (X : option XT) y (groups : option GT) init s :
  drop_folds (self s) = false ->
  exists folds s',
    split X y groups init s = (Ok folds, s') /\
    same_config (self s) (self s') /\
    length folds = length (u_periods_cv (self s)).
Proof.
  intros Hd.
  destruct (split_loop_no_drop y init (u_periods_cv (self s)) 0%nat
              {| self := {| tss := tss (self s); u_periods_cv := u_periods_cv (self s);
                            all_periods := all_periods (self s);
                            drop_folds := drop_folds (self s);
                            n_splits := n_splits (self s); all_indices := [] |};
                 console := console s |} Hd)
    as (s' & Hl & Hc & Hlen).
  exists (all_indices (self s')), s'.
  split; [| split; [exact Hc | exact Hlen]].
  unfold split, enumerate. unfold_monad. cbn [self u_periods_cv].
  now rewrite Hl.
Qed.

(** Imputation never returns on a constructed object: with the drop flag
    the pass of [split] it starts with raises for want of labels; without
    it there are folds, and the first iteration raises, at the latest where
    it reads the name [clone]. *)
Lemma cross_val_impute_raises {O Row} `{Imputer O Row}
    tp up n gap ts mts plot df y c ps c'
    (imputer : ref) (X : Series Row) (flag : bool) (h : list O) :
  init tp up n gap ts mts plot df y c = (Ok ps, c') ->
  is_ok (fst (cross_val_impute imputer X flag
                {| panel := {| self := ps; console := c' |}; heap := h |})) = false.
Proof.
  intros Hi. destruct df.
  - pose proof (split_after_init_without_labels _ _ _ _ _ _ _ _ _ Hi) as Hs.
    unfold cross_val_impute. unfold bind at 1. rewrite lift_panel_run.
    cbn [panel fst]. rewrite Hs. reflexivity.
  - apply init_ok in Hi.
    destruct Hi as (_ & Hn & Hu & _ & Hd & _).
    unfold cross_val_impute. unfold bind at 1. rewrite lift_panel_run. cbn [panel].
    destruct (split_no_drop (XT:=unit) (GT:=unit) None None None false
                {| self := ps; console := c' |} Hd) as (f1 & s1 & E1 & C1 & _).
    rewrite E1. cbn [fst snd].
    change (global_name (S:=World O) "tqdm") with (ret (S:=World O) tt).
    unfold bind at 1, ret at 1.
    unfold bind at 1. rewrite lift_panel_run. cbn [panel heap].
    assert (Hd1 : drop_folds (self s1) = false).
    { destruct C1 as (_ & _ & _ & <-). exact Hd. }
    destruct (split_no_drop (XT:=unit) (GT:=unit) None None None false s1 Hd1)
      as (f2 & s2 & E2 & C2 & L2).
    rewrite E2. cbn [fst snd].
    destruct f2 as [| [tr te] f2].
    { destruct C1 as (_ & Hu1 & _). cbn [self] in Hu1.
      rewrite <- Hu1 in L2. simpl in L2. lia. }
    unfold bind at 1. rewrite fold_each_cons.
    unfold cross_val_impute_body. unfold_monad.
    destruct (loc_mask X tr); [| reflexivity].
    destruct (loc_mask X te); reflexivity.
Qed.

(** C9. Imputation does not return: the name [clone] is not bound in the
    module.  For [PanelSplit(periods6, n_splits=2, gap=0)] and a table with
    gaps, [cross_val_impute] raises [NameError] in the first fold, before
    any imputer is created and before anything is filled in. *)
Theorem cross_val_impute_NameError :
  let w := {| panel := {| self := panel_plain; console := console0 |};
              heap := [None] |} in
  fst built_plain = Ok panel_plain /\
  fst (cross_val_impute 0%nat gaps6 true w) = Raise (NameError "clone") /\
  heap (snd (cross_val_impute 0%nat gaps6 true w)) = [None].
Proof. cbv zeta. repeat split; reflexivity. Qed.

Ltac bind_ok H :=
  let a := fresh "a" in
  let s := fresh "s" in
  let E := fresh "E" in
  apply bind_ok_inv in H; destruct H as (a & s & E & H).

Section FittedModels.

Context {O Row W V IdxRow : Type} `{Estimator O Row W V}.

Lemma _predict_fold_returns_receiver estimator X_train y_train X_test pm sw
    (w : World O) out model w' :
  fit_returns_self ->
  _predict_fold estimator X_train y_train X_test pm sw w = (Ok (out, model), w') ->
  model = estimator.
Proof.
  intros Hself Hp. unfold _predict_fold in Hp.
  bind_ok Hp. bind_ok Hp. bind_ok Hp. bind_ok Hp.
  destruct a0 as [st r]. unfold lift_result in E0. inversion E0 as [[Hfit Hs]].
  apply Hself in Hfit. subst r. simpl in E2.
  unfold ret in E2. inversion E2; subst a2.
  bind_ok Hp.
  repeat match type of Hp with
         | (if ?c then _ else _) _ = _ => destruct c
         end;
    [bind_ok Hp | bind_ok Hp; bind_ok Hp | bind_ok Hp; bind_ok Hp |
     unfold raise in Hp; discriminate];
    unfold ret in Hp; now inversion Hp.
Qed.

Lemma cross_val_predict_body_alias estimator X y (indices : Series IdxRow) pm sw
    acc fold (w : World O) acc' w' :
  fit_returns_self ->
  cross_val_predict_body estimator X y indices pm sw acc fold w = (Ok acc', w') ->
  Forall (eq estimator) (snd acc) -> Forall (eq estimator) (snd acc').
Proof.
  intros Hself Hb Hacc. unfold cross_val_predict_body in Hb.
  destruct acc as [predictions fitted_models], fold as [train_indices test_indices].
  do 6 bind_ok Hb. bind_ok Hb. destruct a5 as [out model].
  apply _predict_fold_returns_receiver in E5; [| exact Hself]. subst model.
  bind_ok Hb. unfold ret in Hb. inversion Hb; subst. simpl in *.
  apply Forall_app. split; auto.
Qed.

Lemma cross_val_predict_loop_alias estimator X y (indices : Series IdxRow) pm sw folds :
  fit_returns_self ->
  forall acc (w : World O) acc' w',
    fold_each folds acc (cross_val_predict_body estimator X y indices pm sw) w
    = (Ok acc', w') ->
    Forall (eq estimator) (snd acc) -> Forall (eq estimator) (snd acc').
Proof.
  intros Hself. induction folds as [| f folds IH]; intros acc w acc' w' Hl Hacc.
  - simpl in Hl. unfold ret in Hl. now inversion Hl; subst.
  - rewrite fold_each_cons in Hl.
    destruct (cross_val_predict_body _ _ _ _ _ _ acc f w) as [[acc1 | e] w1] eqn:Hb;
      [| discriminate].
    eapply IH; [exact Hl |].
    eapply cross_val_predict_body_alias; eauto.
Qed.

(** X17. With an estimator whose [fit] returns its receiver, every entry of
    the list of fitted models is the estimator that was passed in: one
    object, listed once per fold. *)
Lemma fitted_models_are_the_estimator estimator X y y_name (indices : Series IdxRow)
    pm col sw (w : World O) table models w' :
  fit_returns_self ->
  cross_val_predict estimator X y y_name indices pm col true sw w
  = (Ok (table, Some models), w') ->
  Forall (eq estimator) models.
Proof.
  intros Hself Hc. unfold cross_val_predict in Hc.
  bind_ok Hc. bind_ok Hc. bind_ok Hc. destruct a1 as [predictions fitted_models].
  bind_ok Hc. bind_ok Hc. unfold ret in Hc. inversion Hc; subst.
  eapply cross_val_predict_loop_alias in E1; eauto; simpl; constructor.
Qed.

End FittedModels.

(** C8. No fold gets a model of its own: [_predict_fold] calls [fit] on the
    estimator it was passed, and an estimator whose [fit] returns [self]
    comes back as the fitted model of every fold.  For
    [PanelSplit(periods6, n_splits=2, gap=0)] and the label recorder, the
    list returned names the one estimator twice, and that object holds the
    labels of the train rows of the last fold, fold 0 having been trained on
    the first two rows only. *)
Theorem cross_val_predict_models_alias :
  let out := cross_val_predict (IdxRow:=Z) 0%nat features6 labels_distinct (Some "y")
               features6 "predict" None true None world_plain in
  fst built_plain = Ok panel_plain /\
  map (fun fold => loc_mask labels_distinct (fst fold)) (all_indices panel_plain)
  = [Ok [(0, Some 0); (1, Some 1)];
     Ok [(0, Some 0); (1, Some 1); (2, Some 2); (3, Some 3)]] /\
  option_map snd (match fst out with Ok r => Some r | Raise _ => None end)
  = Some (Some [0%nat; 0%nat]) /\
  heap (snd out) = [[Some 0; Some 1; Some 2; Some 3]].
Proof. cbv zeta. repeat split; reflexivity. Qed.

(** ** Further properties of [split] *)

(** One iteration of the loop of [split], by the outcome of the condition
    of line 71. *)
Lemma split_body_cases y init i f s r s' :
  split_body y init (i, f) s = (r, s') ->
  match drop_test (all_periods (self s)) (drop_folds (self s)) y f with
  | Raise e => r = Raise e /\ s' = s
  | Ok true =>
      r = Ok tt /\ all_indices (self s') = all_indices (self s) /\
      (if init
       then n_splits (self s') = n_splits (self s) - 1 /\
            stdout (console s') = (stdout (console s) ++ [dropping_message i])%list
       else n_splits (self s') = n_splits (self s) /\ console s' = console s)
  | Ok false =>
      r = Ok tt /\
      all_indices (self s')
      = (all_indices (self s) ++ [project (all_periods (self s)) f])%list /\
      n_splits (self s') = n_splits (self s) /\ console s' = console s
  end.
Proof.
  destruct f as [trp tep]. unfold split_body, drop_test, project.
  unfold_monad. simpl.
  destruct s as [[a b c0 d e g] k]. simpl.
  destruct d.
  - destruct (empty_or_single_valued _ _ y) as [[|] | err]; [destruct init | |];
      intros H; inversion H; subst; simpl; auto.
  - intros H; inversion H; subst; simpl; auto.
Qed.

Lemma split_loop_cases y init ap df folds : forall i s r s',
  all_periods (self s) = ap -> drop_folds (self s) = df ->
  for_each (enumerate_from i folds) (split_body y init) s = (r, s') ->
  is_ok r = forallb (fun f => is_ok (drop_test ap df y f)) folds /\
  (r = Ok tt ->
   all_indices (self s')
   = (all_indices (self s) ++ map (project ap) (filter (is_kept ap df y) folds))%list /\
   (if init
    then n_splits (self s')
         = n_splits (self s) - Z.of_nat (length (dropped_positions ap df y i folds)) /\
         stdout (console s')
         = (stdout (console s)
            ++ map dropping_message (dropped_positions ap df y i folds))%list
    else n_splits (self s') = n_splits (self s) /\ console s' = console s)).
Proof.
  induction folds as [| f folds IH]; intros i s r s' Hap Hdf H.
  - simpl in H. unfold ret in H. inversion H; subst.
    unfold dropped_positions. simpl. rewrite !app_nil_r.
    split; [reflexivity |]. intros _. split; [reflexivity |].
    destruct init; split; auto; lia.
  - rewrite enumerate_from_cons, for_each_cons in H.
    destruct (split_body y init (i, f) s) as [r1 s1] eqn:Hb.
    pose proof (split_body_spec _ _ _ _ Hb) as ((_ & _ & C3 & C4) & _).
    apply split_body_cases in Hb. rewrite Hap, Hdf in Hb.
    unfold dropped_positions, is_kept, is_dropped in *.
    cbn [forallb filter enumerate_from map snd fst].
    destruct (drop_test ap df y f) as [[|] | err] eqn:Ht.
    + destruct Hb as (-> & Ha & Hn).
      apply IH in H; [| congruence | congruence].
      destruct H as [Hok Hres]. split; [exact Hok |].
      intros Hr. destruct (Hres Hr) as [Hi Hc]. cbn [negb map fst length].
      rewrite Hi, Ha. split; [reflexivity |].
      destruct init.
      * destruct Hn as [Hn Ho], Hc as [Hc1 Hc2].
        rewrite Hc1, Hc2, Hn, Ho. cbn [map]. rewrite <- app_assoc.
        split; [lia | reflexivity].
      * destruct Hn as [Hn Ho], Hc as [Hc1 Hc2]. split; congruence.
    + destruct Hb as (-> & Ha & Hn & Ho).
      apply IH in H; [| congruence | congruence].
      destruct H as [Hok Hres]. split; [exact Hok |].
      intros Hr. destruct (Hres Hr) as [Hi Hc]. cbn [negb map].
      rewrite Hi, Ha, <- app_assoc. split; [reflexivity |].
      destruct init.
      * destruct Hc as [Hc1 Hc2]. rewrite Hc1, Hc2, Hn, Ho. split; reflexivity.
      * destruct Hc as [Hc1 Hc2]. split; congruence.
    + destruct Hb as (-> & ->). inversion H; subst.
      split; [reflexivity |]. intros Hr; discriminate.
Qed.

(** What [split] does, whole: it returns exactly when the condition of
    line 71 can be evaluated for every period-level fold; it then returns,
    in order, the row-level folds of the period-level folds the condition
    does not hold for, and leaves that list in [all_indices]. *)
Lemma split_cases {XT GT} (X : option XT) y (groups : option GT) init s :
  let ap := all_periods (self s) in
  let df := drop_folds (self s) in
  let folds := u_periods_cv (self s) in
  let out := split X y groups init s in
  is_ok (fst out) = forallb (fun f => is_ok (drop_test ap df y f)) folds /\
  forall res, fst out = Ok res ->
    res = map (project ap) (filter (is_kept ap df y) folds) /\
    all_indices (self (snd out)) = res /\
    (if init
     then n_splits (self (snd out))
          = n_splits (self s) - Z.of_nat (length (dropped_positions ap df y 0 folds)) /\
          stdout (console (snd out))
          = (stdout (console s) ++ map dropping_message (dropped_positions ap df y 0 folds))%list
     else n_splits (self (snd out)) = n_splits (self s) /\ console (snd out) = console s).
Proof.
  cbv zeta. unfold split, enumerate. unfold_monad. cbn [self u_periods_cv].
  match goal with
  | |- context [for_each ?l ?b ?s0] => destruct (for_each l b s0) as [r s1] eqn:Hl
  end.
  eapply split_loop_cases in Hl; [| reflexivity | reflexivity].
  cbn [self all_indices n_splits console app] in Hl.
  destruct Hl as [Hok Hres]. destruct r as [[] | e]; cbn [fst snd].
  - split; [exact Hok |]. intros res Hr. inversion Hr; subst res.
    destruct (Hres eq_refl) as [Hi Hc]. rewrite Hi. repeat split; auto.
  - split; [exact Hok |]. intros res Hr. discriminate.
Qed.

(** X1. When [split] returns, it returns, in the order of the period-level
    folds, the masks of exactly those folds for which the condition of
    line 71 is false (every fold when the drop flag is off); each mask has
    one entry per row, True where the period of the row is among the
    periods of the fold; the list returned is the one left in
    [all_indices]. *)
Theorem split_returns_kept_folds {XT GT : Type} (X : option XT)
    (y : option (Series Label)) (groups : option GT) (init : bool) s res s' :
  split X y groups init s = (Ok res, s') ->
  let ap := all_periods (self s) in
  res = map (project ap)
          (filter (is_kept ap (drop_folds (self s)) y) (u_periods_cv (self s))) /\
  all_indices (self s') = res /\
  Forall (fun fold => length (fst fold) = length ap /\ length (snd fold) = length ap) res.
Proof.
  intros H. cbv zeta.
  destruct (split_cases X y groups init s) as [_ Hres]. rewrite H in Hres.
  destruct (Hres res eq_refl) as (Hr & Ha & _). cbn [snd] in Ha.
  split; [exact Hr |]. split; [exact Ha |].
  rewrite Hr. apply Forall_forall. intros fold Hin.
  apply in_map_iff in Hin. destruct Hin as (f & <- & _).
  unfold project. cbn [fst snd]. now rewrite !isin_length.
Qed.

Lemma split_returns_kept_folds_witness :
  fst (split (XT:=unit) (GT:=unit) None (Some labels_flat2) None false state_flat2)
  = Ok [([true; true; true; true; false; false],
         [false; false; false; false; true; true])].
Proof.
  destruct (split (XT:=unit) (GT:=unit) None (Some labels_flat2) None false state_flat2)
    as [r s'] eqn:H.
  assert (Hr : r = Ok [([true; true; true; true; false; false],
                        [false; false; false; false; true; true])])
    by (now inversion H).
  subst r.
  pose proof (split_returns_kept_folds _ _ _ _ _ H) as (Hres & _).
  cbn [fst]. rewrite Hres. reflexivity.
Defined.

(** X2. [split] returns, and does not raise, whenever the drop flag is off
    (whatever [y] is) or [y] holds one label per row of the period column. *)
Theorem split_returns_with_row_labels {XT GT : Type} (X : option XT)
    (y : option (Series Label)) (groups : option GT) (init : bool) s :
  drop_folds (self s) = false \/
  (exists labels, y = Some labels /\ length labels = length (all_periods (self s))) ->
  is_ok (fst (split X y groups init s)) = true.
Proof.
  intros Hy. destruct (split_cases X y groups init s) as [Hok _]. rewrite Hok.
  apply forallb_forall. intros [trp tep] _. unfold drop_test. cbn [fst snd].
  destruct Hy as [-> | (labels & -> & Hlen)]; [reflexivity |].
  destruct (drop_folds (self s)); [| reflexivity].
  unfold empty_or_single_valued, loc_mask. rewrite !isin_length, Hlen, Nat.eqb_refl.
  destruct (Nat.eqb _ 0 || Nat.eqb _ 0); [reflexivity |].
  destruct (nunique _ =? 1); reflexivity.
Qed.

Lemma split_returns_with_row_labels_witness :
  is_ok (fst (split (XT:=unit) (GT:=unit) None (Some labels_varied) None false state_flat2))
  = true.
Proof.
  apply split_returns_with_row_labels. right.
  exists labels_varied. split; reflexivity.
Defined.

(** X3. With the drop flag on, folds to go through and rows in the period
    column, [split] raises [IndexError] when [y] does not hold one label per
    row. *)
Theorem split_wrong_length_labels_raises {XT GT : Type} (X : option XT)
    (labels : Series Label) (groups : option GT) (init : bool) s :
  drop_folds (self s) = true -> u_periods_cv (self s) <> [] ->
  (0 < length (all_periods (self s)))%nat ->
  length labels <> length (all_periods (self s)) ->
  fst (split X (Some labels) groups init s)
  = Raise (IndexError "Boolean index has wrong length").
Proof.
  intros Hd Hu Hrows Hlen. unfold split, enumerate.
  destruct (u_periods_cv (self s)) as [| [trp tep] rest] eqn:Hf; [congruence |].
  unfold_monad. cbn [self u_periods_cv]. rewrite Hf.
  rewrite enumerate_from_cons, for_each_cons.
  unfold split_body. unfold_monad. cbn [self all_periods drop_folds]. rewrite Hd.
  unfold empty_or_single_valued, loc_mask. rewrite !isin_length.
  destruct (length (all_periods (self s))) as [| k] eqn:Hk; [lia |].
  change (Nat.eqb (S k) 0) with false. cbn [orb].
  destruct (Nat.eqb_spec (S k) (length labels)) as [E | _]; [congruence | reflexivity].
Qed.

Lemma split_wrong_length_labels_raises_witness :
  fst (split (XT:=unit) (GT:=unit) None (Some labels_short) None false state_flat2)
  = Raise (IndexError "Boolean index has wrong length").
Proof.
  apply split_wrong_length_labels_raises.
  - reflexivity.
  - discriminate.
  - simpl. lia.
  - simpl. lia.
Defined.

(** X4. The outcome of a call of [split] does not depend on the calls made
    before it: after any earlier call, with any arguments, returned or
    raised, a call gives what it gives on the object as constructed.  In
    particular two calls in a row with the same labels give the same
    masks. *)
Theorem split_outcome_independent_of_earlier_calls
    {XT1 GT1 XT2 GT2 : Type} (X1 : option XT1) (y1 : option (Series Label))
    (groups1 : option GT1) (init1 : bool) (X2 : option XT2)
    (y2 : option (Series Label)) (groups2 : option GT2) (init2 : bool) s :
  fst (split X2 y2 groups2 init2 (snd (split X1 y1 groups1 init1 s)))
  = fst (split X2 y2 groups2 init2 s).
Proof.
  symmetry. apply split_same_result.
  destruct (split X1 y1 groups1 init1 s) as [r s'] eqn:H.
  apply split_spec in H. apply H.
Qed.

(** X5. A call with [init=False] is transient: whether it returns or raises,
    it prints nothing, emits no warning, and leaves the selector, the
    period-level folds, the period column, the drop flag and the split count
    as they were. *)
Theorem split_later_call_frame {XT GT : Type} (X : option XT)
    (y : option (Series Label)) (groups : option GT) s :
  let s' := snd (split X y groups false s) in
  same_config (self s) (self s') /\
  n_splits (self s') = n_splits (self s) /\
  console s' = console s.
Proof.
  cbv zeta. destruct (split X y groups false s) as [r s'] eqn:H.
  apply split_spec in H. destruct H as (Hc & _ & Hf & _).
  destruct (Hf eq_refl). cbn [snd]. auto.
Qed.

(** X6. A pass with [init=True] that returns lowers the split count by the
    number of folds it leaves out and prints one line for each of them, in
    order, naming the position of the fold among the period-level folds; the
    folds left out and the folds returned are all the folds. *)
Theorem split_init_pass_reports_dropped {XT GT : Type} (X : option XT)
    (y : option (Series Label)) (groups : option GT) s res s' :
  split X y groups true s = (Ok res, s') ->
  let dropped := dropped_positions (all_periods (self s)) (drop_folds (self s)) y 0
                   (u_periods_cv (self s)) in
  n_splits (self s') = n_splits (self s) - Z.of_nat (length dropped) /\
  stdout (console s') = (stdout (console s) ++ map dropping_message dropped)%list /\
  (length res + length dropped = length (u_periods_cv (self s)))%nat /\
  Forall (fun i => (i < length (u_periods_cv (self s)))%nat) dropped.
Proof.
  intros H. cbv zeta.
  destruct (split_cases X y groups true s) as [_ Hres]. rewrite H in Hres.
  destruct (Hres res eq_refl) as (Hr & _ & Hn & Ho). cbn [snd] in Hn, Ho.
  split; [exact Hn |]. split; [exact Ho |].
  rewrite Hr, length_map. unfold dropped_positions, is_kept.
  generalize (u_periods_cv (self s)) as folds. intros folds.
  assert (G : forall i,
    (length (filter (fun f => negb (is_dropped (all_periods (self s)) (drop_folds (self s)) y f)) folds)
     + length (map fst (filter (fun p => is_dropped (all_periods (self s)) (drop_folds (self s)) y (snd p))
                          (enumerate_from i folds)))
     = length folds)%nat /\
    Forall (fun k => (i <= k < i + length folds)%nat)
      (map fst (filter (fun p => is_dropped (all_periods (self s)) (drop_folds (self s)) y (snd p))
                  (enumerate_from i folds)))).
  { induction folds as [| f folds IH]; intros i; cbn [filter enumerate_from map length snd].
    - split; [reflexivity | constructor].
    - destruct (IH (S i)) as [IH1 IH2].
      destruct (is_dropped _ _ y f); cbn [negb map fst length]; split; try lia.
      + constructor; [lia |]. eapply Forall_impl; [| exact IH2]. simpl. intros; lia.
      + eapply Forall_impl; [| exact IH2]. simpl. intros; lia. }
  destruct (G 0%nat) as [G1 G2]. split; [exact G1 |].
  eapply Forall_impl; [| exact G2]. simpl. intros; lia.
Qed.

Lemma split_init_pass_reports_dropped_witness :
  n_splits (self (snd (split (XT:=unit) (GT:=unit) None (Some labels_constant) None true
                         state_varied))) = 0
  /\ stdout (console (snd (split (XT:=unit) (GT:=unit) None (Some labels_constant) None true
                             state_varied)))
     = [dropping_message 0; dropping_message 1].
Proof.
  destruct (split (XT:=unit) (GT:=unit) None (Some labels_constant) None true state_varied)
    as [r s'] eqn:H.
  assert (Hr : r = Ok []) by (now inversion H).
  subst r.
  pose proof (split_init_pass_reports_dropped _ _ _ _ H) as (Hn & Ho & _).
  cbn [snd]. rewrite Hn, Ho. split; reflexivity.
Defined.

(** ** The folds of a constructed object *)

Lemma firstn_seq_In k : forall a len x,
  In x (firstn k (seq a len)) -> (a <= x < a + k)%nat /\ (x < a + len)%nat.
Proof.
  induction k as [| k IH]; intros a len x Hin; [destruct Hin |].
  destruct len as [| len]; [destruct Hin |].
  cbn [seq firstn] in Hin. destruct Hin as [<- | Hin]; [lia |].
  apply IH in Hin. lia.
Qed.

(** The positions a slice of [np.arange(n)] holds. *)
Lemma slice_arange_In n a b x :
  In x (slice (arange n) a b) ->
  let len := Z.of_nat (Z.to_nat n) in
  slice_bound len a <= x < slice_bound len b /\ 0 <= x < len.
Proof.
  unfold slice, arange. rewrite length_map, length_seq. cbv zeta.
  set (len := Z.of_nat (Z.to_nat n)).
  rewrite skipn_map, firstn_map, skipn_seq. intros Hin.
  apply in_map_iff in Hin. destruct Hin as (i & <- & Hin).
  apply firstn_seq_In in Hin. simpl in Hin.
  assert (Hlen : 0 <= len) by (subst len; lia).
  assert (Hlo : 0 <= slice_bound len a <= len).
  { unfold slice_bound. destruct (Z.ltb_spec a 0); lia. }
  lia.
Qed.

Lemma range_In start stop step l x :
  range start stop step = Ok l -> In x l ->
  exists i, x = start + i * step /\ 0 <= i < range_len start stop step.
Proof.
  unfold range. destruct (step =? 0); [discriminate |].
  intros H Hin. inversion H; subst l. clear H.
  apply in_map_iff in Hin. destruct Hin as (i & <- & Hin).
  apply in_seq in Hin. exists (Z.of_nat i). split; [reflexivity | lia].
Qed.

(** With a gap that is not negative, the selector puts every train
    position before every test position, and all positions in range. *)
Lemma TimeSeriesSplit_split_ordered t n_samples gap pairs :
  1 < tss_n_splits t -> tss_gap t = Some gap -> 0 <= gap ->
  TimeSeriesSplit_split t n_samples = Ok pairs ->
  Forall (fun pair =>
            (forall a b, In a (fst pair) -> In b (snd pair) -> a < b) /\
            (forall a, In a (fst pair) \/ In a (snd pair) -> 0 <= a < n_samples))
         pairs.
Proof.
  intros Hn Hgap Hg. unfold TimeSeriesSplit_split. rewrite Hgap.
  destruct (Z.ltb_spec n_samples (tss_n_splits t + 1)) as [| Hfolds]; [discriminate |].
  set (ts := match tss_test_size t with
             | Some ts => ts
             | None => n_samples / (tss_n_splits t + 1)
             end).
  destruct (Z.leb_spec (n_samples - gap - ts * tss_n_splits t) 0) as [| Hroom];
    [discriminate |].
  destruct (range _ _ _) as [starts | e] eqn:Hr; [| discriminate].
  intros Hok. inversion Hok; subst pairs. clear Hok.
  assert (Hts : ts <> 0).
  { intros Hz. unfold range in Hr. rewrite Hz in Hr. discriminate. }
  apply Forall_forall. intros pair Hin.
  apply in_map_iff in Hin. destruct Hin as (test_start & <- & Hin).
  eapply range_In in Hin; [| exact Hr]. destruct Hin as (i & -> & Hi).
  rewrite range_len_test_starts in Hi by assumption.
  set (test_start := n_samples - tss_n_splits t * ts + i * ts).
  assert (Hlen : Z.of_nat (Z.to_nat n_samples) = n_samples) by lia.
  assert (Htest : forall b, In b (slice (arange n_samples) test_start (test_start + ts)) ->
                  0 < ts /\ test_start <= b < n_samples).
  { intros b Hb. apply slice_arange_In in Hb. cbv zeta in Hb. rewrite Hlen in Hb.
    unfold slice_bound in Hb.
    destruct (Z.ltb_spec test_start 0), (Z.ltb_spec (test_start + ts) 0);
      subst test_start; nia. }
  assert (Htrain : forall lo a, In a (slice (arange n_samples) lo (test_start - gap)) ->
                   0 < ts -> 0 <= a < n_samples /\ a < test_start - gap).
  { intros lo a Ha Hpos. apply slice_arange_In in Ha. cbv zeta in Ha. rewrite Hlen in Ha.
    unfold slice_bound in Ha.
    destruct (Z.ltb_spec (test_start - gap) 0); subst test_start; [nia | lia]. }
  unfold fold_positions. fold test_start.
  destruct (tss_max_train_size t) as [m |];
    [destruct (negb (m =? 0) && (m <? test_start - gap)) |]; cbn [fst snd];
    (split; [intros a b Ha Hb; apply Htest in Hb; destruct Hb as [Hpos Hb];
             apply Htrain in Ha; [lia | exact Hpos]
            | intros a [Ha | Ha];
              [| apply Htest in Ha; lia];
              apply slice_arange_In in Ha; cbv zeta in Ha; lia]).
Qed.

Lemma iloc1_nonneg {A} (s : Series A) i v :
  iloc1 s i = Ok v -> 0 <= i -> nth_error (values s) (Z.to_nat i) = Some v.
Proof.
  unfold iloc1. intros H Hi.
  destruct (Z.ltb_spec i 0); [lia |].
  destruct (_ || _); [discriminate |].
  destruct (nth_error (values s) (Z.to_nat i)); now inversion H.
Qed.

Lemma iloc_values_In {A} (s : Series A) positions : forall vs v,
  iloc_values s positions = Ok vs -> In v vs ->
  exists i, In i positions /\ iloc1 s i = Ok v.
Proof.
  induction positions as [| i rest IH]; intros vs v H Hin; simpl in H.
  - inversion H; subst. destruct Hin.
  - destruct (iloc1 s i) as [x |] eqn:Hx; [| discriminate].
    destruct (iloc_values s rest) as [xs |]; [| discriminate].
    inversion H; subst vs. destruct Hin as [<- | Hin].
    + exists i. simpl. auto.
    + destruct (IH xs v eq_refl Hin) as (j & Hj & Hv). exists j. simpl. auto.
Qed.

Lemma split_unique_periods_loop_In pairs up : forall folds f,
  split_unique_periods_loop pairs up = Ok folds -> In f folds ->
  exists pair, In pair pairs /\
    iloc_values up (fst pair) = Ok (fst f) /\ iloc_values up (snd pair) = Ok (snd f).
Proof.
  induction pairs as [| [tr te] rest IH]; intros folds f H Hin; simpl in H.
  - inversion H; subst. destruct Hin.
  - destruct (iloc_values up tr) as [ptr |] eqn:Htr; [| discriminate].
    destruct (iloc_values up te) as [pte |] eqn:Hte; [| discriminate].
    destruct (split_unique_periods_loop rest up) as [fs |]; [| discriminate].
    inversion H; subst folds. destruct Hin as [<- | Hin].
    + exists (tr, te). simpl. auto.
    + destruct (IH fs f eq_refl Hin) as (pair & Hp & Hv). exists pair. simpl. auto.
Qed.

Lemma strictly_ascending_nth l : forall i j a b,
  strictly_ascending l ->
  nth_error l i = Some a -> nth_error l j = Some b -> (i < j)%nat -> a < b.
Proof.
  unfold strictly_ascending.
  induction l as [| x l IH]; intros i j a b Hs Ha Hb Hij.
  - destruct i; discriminate.
  - apply StronglySorted_inv in Hs. destruct Hs as [Hs Hall].
    destruct j as [| j]; [lia |]. simpl in Hb.
    destruct i as [| i]; simpl in Ha.
    + inversion Ha; subst x. rewrite Forall_forall in Hall.
      apply Hall. eapply nth_error_In; eauto.
    + eapply IH; eauto. lia.
Qed.

(** A successful construction, step by step: what the selector gave, what
    the period-level folds are, and which of them were collected. *)
Lemma init_ok_folds tp up n gap ts mts plot df y c ps c' :
  init tp up n gap ts mts plot df y c = (Ok ps, c') ->
  exists t pairs,
    TimeSeriesSplit_init n gap ts mts = Ok t /\
    TimeSeriesSplit_split t (Z.of_nat (length (default_unique_periods tp))) = Ok pairs /\
    split_unique_periods_loop pairs (default_unique_periods tp) = Ok (u_periods_cv ps) /\
    all_periods ps = tp /\ drop_folds ps = df /\
    all_indices ps = map (project tp) (filter (is_kept tp df y) (u_periods_cv ps)) /\
    n_splits ps = n - Z.of_nat (length (dropped_positions tp df y 0 (u_periods_cv ps))) /\
    stdout c' = (stdout c ++ map dropping_message
                               (dropped_positions tp df y 0 (u_periods_cv ps)))%list /\
    warnings_log c' = warnings_log c.
Proof.
  unfold init. intros H.
  apply bind_ok_inv in H. destruct H as ([[u t0] folds] & c1 & Hpf & H).
  pose proof Hpf as Hpf'. apply period_folds_ok in Hpf'.
  destruct Hpf' as (-> & -> & -> & Ht & _).
  assert (Hpairs : exists pairs,
    TimeSeriesSplit_split t0 (Z.of_nat (length (default_unique_periods tp))) = Ok pairs /\
    split_unique_periods_loop pairs (default_unique_periods tp) = Ok folds).
  { unfold period_folds in Hpf. unfold_monad. simpl in Hpf. rewrite Ht in Hpf.
    unfold reset_index_drop in Hpf. rewrite of_values_length in Hpf.
    unfold values in Hpf. rewrite length_map in Hpf.
    unfold split_unique_periods in Hpf.
    destruct (TimeSeriesSplit_split t0 _) as [pairs |]; [| discriminate].
    exists pairs. split; [reflexivity |].
    destruct (split_unique_periods_loop pairs _); inversion Hpf. reflexivity. }
  destruct Hpairs as (pairs & Hsel & Hloop).
  apply bind_ok_inv in H. destruct H as ([] & c2 & Hw & H).
  assert (Hc2 : c2 = c).
  { destruct y, df; unfold_monad; simpl in Hw; try discriminate; now inversion Hw. }
  subst c2.
  apply bind_ok_inv in H. destruct H as ([] & c3 & Hm & H).
  assert (Hc3 : c3 = c).
  { destruct y, df; unfold_monad; simpl in Hm; try discriminate; now inversion Hm. }
  subst c3.
  apply bind_ok_inv in H. destruct H as ([rf obj] & c4 & Hs & H).
  unfold call_method in Hs.
  match type of Hs with
  | match ?call with _ => _ end = _ => destruct call as [[a | e] s'] eqn:Hsplit
  end; [| discriminate].
  inversion Hs; subst rf obj c4. clear Hs.
  match type of Hsplit with
  | split ?X ?y0 ?g ?i ?s0 = _ =>
      pose proof (split_cases X y0 g i s0) as Hcases; cbv zeta in Hcases;
      destruct Hcases as [_ Hres]
  end.
  rewrite Hsplit in Hres. destruct (Hres a eq_refl) as (Ha & Hi & Hn & Ho).
  cbn [fst snd self console all_periods drop_folds u_periods_cv n_splits] in *.
  pose proof Hsplit as Hframe. apply split_spec in Hframe.
  destruct Hframe as ((S1 & S2 & S3 & S4) & _).
  cbn [self u_periods_cv all_periods drop_folds] in S2, S3, S4.
  assert (Hps : ps = self s' /\ c' = console s').
  { destruct plot; unfold_monad; simpl in H; inversion H; auto. }
  destruct Hps as [-> ->].
  exists t0, pairs. rewrite <- S2, <- S3, <- S4.
  split; [exact Ht |]. split; [exact Hsel |]. split; [exact Hloop |].
  split; [reflexivity |]. split; [reflexivity |].
  split; [congruence |]. split; [exact Hn |]. split; [exact Ho |].
  assert (Hwl : forall (f : nat * PeriodFold) st r st',
             split_body y true f st = (r, st') ->
             warnings_log (console st') = warnings_log (console st)).
  { intros [i [trp tep]] st r st'. unfold split_body. unfold_monad. simpl.
    destruct (drop_folds (self st));
      [destruct (empty_or_single_valued _ _ y) as [[|] |] |];
      intros E; inversion E; reflexivity. }
  clear - Hsplit Hwl. unfold split, enumerate in Hsplit. unfold_monad.
  cbn [self u_periods_cv] in Hsplit.
  match type of Hsplit with
  | context [for_each ?l ?b ?s0] =>
      destruct (for_each l b s0) as [r1 s1] eqn:Hl;
      assert (G : warnings_log (console s1) = warnings_log (console s0))
  end.
  { clear Hsplit. revert Hl. generalize 0%nat.
    match goal with |- forall n0, for_each _ _ ?s0 = _ -> _ => generalize s0 end.
    induction folds as [| f folds IH]; intros st i Hl.
    - simpl in Hl. unfold ret in Hl. now inversion Hl.
    - rewrite enumerate_from_cons, for_each_cons in Hl.
      destruct (split_body y true (i, f) st) as [r2 s2] eqn:Hb.
      apply Hwl in Hb. destruct r2.
      + apply IH in Hl. congruence.
      + inversion Hl; subst. exact Hb. }
  destruct r1; inversion Hsplit; subst. exact G.
Qed.

Lemma isin_nth s vals i :
  nth i (isin s vals) false = true -> In (nth i (values s) 0) vals.
Proof.
  unfold isin. intros H.
  destruct (Nat.lt_ge_cases i (length (values s))) as [Hlt | Hge].
  - rewrite (nth_indep _ false (existsb (Z.eqb 0) vals)) in H
      by (now rewrite length_map).
    rewrite (map_nth (fun p => existsb (Z.eqb p) vals)) in H.
    apply existsb_exists in H. destruct H as (x & Hx & He).
    apply Z.eqb_eq in He. now subst.
  - rewrite nth_overflow in H by (now rewrite length_map). discriminate.
Qed.

Lemma project_masks_disjoint ap f : periods_disjoint f -> masks_disjoint (project ap f).
Proof.
  unfold periods_disjoint, masks_disjoint, project. cbn [fst snd].
  intros Hd i Htr Hte. apply isin_nth in Htr, Hte. eauto.
Qed.

(** X7. When no period-level fold names a period on both sides, no fold
    that [split] returns has a row in both its train mask and its test
    mask. *)
Theorem split_masks_disjoint {XT GT : Type} (X : option XT)
    (y : option (Series Label)) (groups : option GT) (init : bool) s res s' :
  split X y groups init s = (Ok res, s') ->
  Forall periods_disjoint (u_periods_cv (self s)) ->
  Forall masks_disjoint res.
Proof.
  intros H Hd.
  pose proof (split_cases X y groups init s) as Hcases. cbv zeta in Hcases.
  destruct Hcases as [_ Hres]. rewrite H in Hres.
  destruct (Hres res eq_refl) as (-> & _). apply Forall_forall. intros fold Hin.
  apply in_map_iff in Hin. destruct Hin as (f & <- & Hf).
  apply filter_In in Hf. destruct Hf as [Hf _].
  apply project_masks_disjoint. rewrite Forall_forall in Hd. now apply Hd.
Qed.

Lemma split_masks_disjoint_witness :
  Forall masks_disjoint
    [([true; true; true; true; false; false],
      [false; false; false; false; true; true])].
Proof.
  apply (@split_masks_disjoint unit unit None (Some labels_flat2) None false state_flat2
           _ (snd (split (XT:=unit) (GT:=unit) None (Some labels_flat2) None false
                     state_flat2))).
  - reflexivity.
  - change (Forall periods_disjoint [([1], [2]); ([1; 2], [3])]).
    constructor; [| constructor; [| constructor]];
      intros p Hp Hq; simpl in Hp, Hq; lia.
Defined.

Lemma TimeSeriesSplit_init_fields n gap ts mts t :
  TimeSeriesSplit_init n gap ts mts = Ok t ->
  tss_n_splits t = n /\ tss_gap t = gap /\ tss_test_size t = ts /\
  tss_max_train_size t = mts.
Proof.
  unfold TimeSeriesSplit_init. destruct (n <=? 1); [discriminate |].
  intros H. inversion H. simpl. auto.
Qed.

(** X8. In an object constructed with a gap that is not negative, every
    train period of a period-level fold is earlier than every test period,
    every period a fold names occurs in the period column, and in every
    row-level fold collected each train row has an earlier period than each
    test row. *)
Theorem constructed_folds_in_time_order
    tp up n gap ts mts plot df y c ps c' :
  init tp up n (Some gap) ts mts plot df y c = (Ok ps, c') -> 0 <= gap ->
  Forall (fun f => train_before_test f /\
                   forall p, In p (fst f) \/ In p (snd f) -> In p (values tp))
         (u_periods_cv ps) /\
  Forall (fun fold => forall i j,
            nth i (fst fold) false = true -> nth j (snd fold) false = true ->
            nth i (values tp) 0 < nth j (values tp) 0)
         (all_indices ps).
Proof.
  intros H Hgap. apply init_ok_folds in H.
  destruct H as (t0 & pairs & Ht & Hsel & Hloop & _ & _ & Hidx & _).
  pose proof (TimeSeriesSplit_init_ok _ _ _ _ Ht) as [Hn Hn'].
  apply TimeSeriesSplit_init_fields in Ht. destruct Ht as (_ & Hg & _).
  eapply TimeSeriesSplit_split_ordered in Hsel; [| lia | exact Hg | exact Hgap].
  rewrite Forall_forall in Hsel.
  assert (Hfolds : Forall (fun f => train_before_test f /\
                     forall p, In p (fst f) \/ In p (snd f) -> In p (values tp))
                     (u_periods_cv ps)).
  { apply Forall_forall. intros f Hf.
    eapply split_unique_periods_loop_In in Hf; [| exact Hloop].
    destruct Hf as (pair & Hp & Htr & Hte).
    destruct (Hsel pair Hp) as [Hord Hrange].
    assert (Hat : forall side vs p,
              iloc_values (default_unique_periods tp) side = Ok vs -> In p vs ->
              (forall a, In a side -> 0 <= a) ->
              exists a, In a side /\
                nth_error (values (default_unique_periods tp)) (Z.to_nat a) = Some p /\
                0 <= a).
    { intros side vs p Hv Hin Hnn.
      eapply iloc_values_In in Hin; [| exact Hv].
      destruct Hin as (a & Ha & H1).
      exists a. split; [exact Ha |]. split; [| now apply Hnn].
      apply iloc1_nonneg; auto. }
    assert (Hnn_tr : forall a, In a (fst pair) -> 0 <= a).
    { intros a Ha. apply (Hrange a). auto. }
    assert (Hnn_te : forall a, In a (snd pair) -> 0 <= a).
    { intros a Ha. apply (Hrange a). auto. }
    split.
    - intros p q Hp' Hq'.
      destruct (Hat _ _ _ Htr Hp' Hnn_tr) as (a & Ha & Hna & Ha0).
      destruct (Hat _ _ _ Hte Hq' Hnn_te) as (b & Hb & Hnb & Hb0).
      eapply strictly_ascending_nth;
        [apply default_unique_periods_strict | exact Hna | exact Hnb |].
      specialize (Hord a b Ha Hb). lia.
    - intros p [Hp' | Hp'].
      + destruct (Hat _ _ _ Htr Hp' Hnn_tr) as (a & Ha & Hna & _).
        apply nth_error_In in Hna. rewrite default_unique_periods_In in Hna. exact Hna.
      + destruct (Hat _ _ _ Hte Hp' Hnn_te) as (a & Ha & Hna & _).
        apply nth_error_In in Hna. rewrite default_unique_periods_In in Hna. exact Hna. }
  split; [exact Hfolds |].
  rewrite Hidx. apply Forall_forall. intros fold Hin.
  apply in_map_iff in Hin. destruct Hin as (f & <- & Hf).
  apply filter_In in Hf. destruct Hf as [Hf _].
  rewrite Forall_forall in Hfolds. destruct (Hfolds f Hf) as [Hord _].
  unfold project. cbn [fst snd]. intros i j Hi Hj.
  apply isin_nth in Hi, Hj. now apply Hord.
Qed.

Lemma constructed_folds_in_time_order_witness :
  Forall (fun fold => forall i j,
            nth i (fst fold) false = true -> nth j (snd fold) false = true ->
            nth i (values periods6) 0 < nth j (values periods6) 0)
         (all_indices panel_flat2).
Proof.
  apply (@constructed_folds_in_time_order periods6 None 2 0 None None false true
           (Some labels_flat2) console0 panel_flat2 (snd built_flat2)).
  - reflexivity.
  - lia.
Defined.

Lemma default_unique_periods_values tp :
  values (default_unique_periods tp) = sorted_distinct_values (values tp).
Proof.
  apply strictly_ascending_unique.
  - apply default_unique_periods_strict.
  - apply sorted_distinct_values_strict.
  - intros x. now rewrite default_unique_periods_In, sorted_distinct_values_In.
Qed.

(** X9. What a construction that returns was given: no unique-period
    override, a gap, at least two splits and more distinct periods than
    splits, and labels exactly when the drop flag is set; it has emitted no
    warning. *)
Theorem init_succeeds_only_if tp up n gap ts mts plot df y c ps c' :
  init tp up n gap ts mts plot df y c = (Ok ps, c') ->
  up = None /\ gap <> None /\ 2 <= n /\
  n + 1 <= Z.of_nat (length (sorted_distinct_values (values tp))) /\
  (y = None <-> df = false) /\
  warnings_log c' = warnings_log c.
Proof.
  intros H. pose proof H as H'. apply init_ok in H'.
  destruct H' as (-> & Hn & _ & _ & _ & _ & Hy1 & Hy2 & _).
  apply init_ok_folds in H.
  destruct H as (t0 & pairs & Ht & Hsel & _ & _ & _ & _ & _ & _ & Hw).
  apply TimeSeriesSplit_init_fields in Ht. destruct Ht as (Hk & Hg & _).
  split; [reflexivity |].
  unfold TimeSeriesSplit_split in Hsel. rewrite Hk, Hg in Hsel.
  destruct (Z.ltb_spec (Z.of_nat (length (default_unique_periods tp))) (n + 1))
    as [| Hsamples]; [discriminate |].
  split; [destruct gap; [discriminate | discriminate] |].
  split; [lia |]. split.
  - rewrite <- default_unique_periods_values. unfold values. now rewrite length_map.
  - split; [| exact Hw].
    destruct df; split; intros E; auto; try discriminate.
    + now apply Hy1 in E.
Qed.

Lemma init_succeeds_only_if_witness :
  2 <= 2 /\ 2 + 1 <= Z.of_nat (length (sorted_distinct_values (values periods6))).
Proof.
  pose proof (@init_succeeds_only_if periods6 None 2 (Some 0) None None false true
                (Some labels_flat2) console0 panel_flat2 (snd built_flat2) eq_refl)
    as (_ & _ & H2 & H3 & _).
  split; [exact H2 | exact H3].
Defined.

Lemma filter_all {A} (f : A -> bool) l :
  (forall x, In x l -> f x = true) -> filter f l = l.
Proof.
  induction l as [| x l IH]; intros H; simpl; auto.
  rewrite (H x) by (simpl; auto). f_equal. apply IH. intros; apply H; simpl; auto.
Qed.

Lemma filter_none {A} (f : A -> bool) l :
  (forall x, In x l -> f x = false) -> filter f l = [].
Proof.
  induction l as [| x l IH]; intros H; simpl; auto.
  rewrite (H x) by (simpl; auto). apply IH. intros; apply H; simpl; auto.
Qed.

(** X10. A construction without the drop flag collects the masks of every
    period-level fold, in order, keeps the split count it was given, which
    is the number of folds collected, and leaves the console untouched. *)
Theorem init_without_drop_keeps_every_fold tp up n gap ts mts plot y c ps c' :
  init tp up n gap ts mts plot false y c = (Ok ps, c') ->
  all_indices ps = map (project tp) (u_periods_cv ps) /\
  n_splits ps = n /\ Z.of_nat (length (all_indices ps)) = n /\ c' = c.
Proof.
  intros H. pose proof H as H'. apply init_ok in H'.
  destruct H' as (_ & _ & Hu & _ & _ & _ & _ & _ & Hc & _).
  apply init_ok_folds in H.
  destruct H as (_ & _ & _ & _ & _ & _ & _ & Hi & Hn & Ho & Hw).
  unfold dropped_positions in Hn, Ho.
  rewrite filter_none in Hn, Ho by (intros; reflexivity).
  rewrite filter_all in Hi by (intros; reflexivity).
  simpl in Hn, Ho. rewrite app_nil_r in Ho.
  split; [exact Hi |]. split; [lia |]. split; [lia |].
  destruct c, c'. simpl in *. congruence.
Qed.

Lemma init_without_drop_keeps_every_fold_witness :
  all_indices panel_plain = map (project periods6) (u_periods_cv panel_plain) /\
  n_splits panel_plain = 2.
Proof.
  pose proof (@init_without_drop_keeps_every_fold periods6 None 2 (Some 0) None None
                false None console0 panel_plain console0 eq_refl) as (H1 & H2 & _).
  split; [exact H1 | exact H2].
Defined.

(** *** Labels without variation *)

Lemma unique_values_constant l v :
  l <> [] -> Forall (eq v) l -> unique_values l = [v].
Proof.
  intros Hne Hall. destruct l as [| x l]; [congruence |].
  inversion Hall as [| ? ? Hx Hl]; subst. simpl. f_equal.
  apply filter_none. intros w Hw. rewrite unique_values_In in Hw.
  rewrite Forall_forall in Hl. rewrite <- (Hl w Hw). now rewrite Z.eqb_refl.
Qed.

Lemma select_mask_Forall {A} (P : A -> Prop) rows : forall mask,
  Forall P rows -> Forall P (select_mask rows mask).
Proof.
  induction rows as [| r rows IH]; intros [| b mask] H; simpl; auto.
  inversion H; subst. destruct b; auto.
Qed.

Lemma select_mask_length {A} (rows : list A) : forall mask,
  length mask = length rows -> length (select_mask rows mask) = count_true mask.
Proof.
  unfold count_true.
  induction rows as [| r rows IH]; intros [| b mask] H; simpl in *; try discriminate; auto.
  destruct b; simpl; rewrite IH by lia; reflexivity.
Qed.

Lemma nunique_constant (rows : Series Label) v :
  rows <> [] -> constant_labels rows v -> nunique rows = 1.
Proof.
  unfold constant_labels, nunique, values. intros Hne Hall.
  assert (Hp : present (map snd rows) = map (fun _ => v) rows).
  { clear Hne. induction Hall as [| [k lbl] rows Hr _ IH]; simpl; auto.
    simpl in Hr. subst lbl. now rewrite IH. }
  rewrite Hp, (@unique_values_constant _ v); [reflexivity | |].
  - destruct rows; [congruence | discriminate].
  - apply Forall_forall. intros x Hx. apply in_map_iff in Hx.
    destruct Hx as (r & <- & _). reflexivity.
Qed.

Lemma count_true_le m : (count_true m <= length m)%nat.
Proof. unfold count_true. apply filter_length_le. Qed.

(** With the flag set and the same label on every row, the condition of
    line 71 holds for every fold that selects a train row. *)
Lemma is_dropped_constant ap labels v f :
  constant_labels labels v -> length labels = length ap ->
  (0 < count_true (isin ap (fst f)))%nat ->
  is_dropped ap true (Some labels) f = true.
Proof.
  intros Hc Hlen Hsel. unfold is_dropped, drop_test, empty_or_single_valued.
  pose proof (count_true_le (isin ap (fst f))) as Hle.
  rewrite !isin_length in *.
  destruct (length ap) as [| k] eqn:Hk; [lia |].
  change (Nat.eqb (S k) 0) with false. cbn [orb].
  unfold loc_mask at 1. rewrite isin_length, Hk, Hlen, Nat.eqb_refl.
  rewrite (@nunique_constant _ v); [reflexivity | |].
  - intros E. apply (f_equal (@length _)) in E.
    rewrite select_mask_length in E by (rewrite isin_length; lia).
    simpl in E. lia.
  - now apply select_mask_Forall.
Qed.

Lemma filter_enumerate_all {A} (P : A -> bool) l : forall i,
  (forall x, In x l -> P x = true) ->
  length (filter (fun p => P (snd p)) (enumerate_from i l)) = length l.
Proof.
  induction l as [| x l IH]; intros i H; [reflexivity |].
  cbn [enumerate_from filter snd]. rewrite H by (simpl; auto).
  simpl. f_equal. apply IH. intros; apply H; simpl; auto.
Qed.

(** X11. With the drop flag set and one and the same label on every row,
    [split] returns no fold at all when every period-level fold selects a
    train row; as a pass with [init=True] it lowers the split count by the
    number of period-level folds. *)
Theorem split_constant_labels_drops_all {XT GT : Type} (X : option XT)
    (labels : Series Label) (v : Z) (groups : option GT) (init : bool) s :
  drop_folds (self s) = true ->
  constant_labels labels v -> length labels = length (all_periods (self s)) ->
  Forall (fun f => (0 < count_true (isin (all_periods (self s)) (fst f)))%nat)
         (u_periods_cv (self s)) ->
  let out := split X (Some labels) groups init s in
  fst out = Ok [] /\
  (init = true ->
   n_splits (self (snd out))
   = n_splits (self s) - Z.of_nat (length (u_periods_cv (self s)))).
Proof.
  intros Hd Hc Hlen Hsel. cbv zeta.
  pose proof (split_cases X (Some labels) groups init s) as Hcases.
  cbv zeta in Hcases. rewrite Hd in Hcases. destruct Hcases as [Hok Hres].
  rewrite Forall_forall in Hsel.
  assert (Hall : forall f, In f (u_periods_cv (self s)) ->
                 is_dropped (all_periods (self s)) true (Some labels) f = true).
  { intros f Hf. eapply is_dropped_constant; eauto. }
  assert (Hret : is_ok (fst (split X (Some labels) groups init s)) = true).
  { rewrite Hok. apply forallb_forall. intros f Hf.
    specialize (Hall f Hf). unfold is_dropped in Hall.
    destruct (drop_test _ _ _ f); [reflexivity | discriminate]. }
  destruct (fst (split X (Some labels) groups init s)) as [res |] eqn:Hfst;
    [| discriminate].
  destruct (Hres res eq_refl) as (Hr & _ & Hn).
  rewrite filter_none in Hr
    by (intros f Hf; unfold is_kept; now rewrite (Hall f Hf)).
  split; [now subst res |].
  intros ->. destruct Hn as [Hn _]. rewrite Hn. do 2 f_equal.
  unfold dropped_positions. rewrite length_map.
  now apply filter_enumerate_all.
Qed.

Lemma split_constant_labels_drops_all_witness :
  fst (split (XT:=unit) (GT:=unit) None (Some labels_constant) None false state_varied)
  = Ok [].
Proof.
  apply (@split_constant_labels_drops_all unit unit None labels_constant 0 None false
           state_varied).
  - reflexivity.
  - repeat constructor.
  - reflexivity.
  - change (u_periods_cv (self state_varied)) with [([1], [2]); ([1; 2], [3])].
    repeat constructor.
Defined.

Lemma arange_pos_head n : 0 < n -> exists rest, arange n = 0 :: rest.
Proof.
  intros Hn. unfold arange.
  destruct (Z.to_nat n) as [| k] eqn:Hk; [lia |].
  simpl. eauto.
Qed.

(** Without a bound on the train window and with a positive test size,
    position 0 is a train position of every pair the selector yields. *)
Lemma TimeSeriesSplit_split_train_first t n_samples pairs :
  1 < tss_n_splits t -> tss_max_train_size t = None ->
  match tss_test_size t with Some ts => 0 < ts | None => True end ->
  TimeSeriesSplit_split t n_samples = Ok pairs ->
  Forall (fun pair => In 0 (fst pair)) pairs.
Proof.
  intros Hn Hm Hts. unfold TimeSeriesSplit_split.
  destruct (Z.ltb_spec n_samples (tss_n_splits t + 1)) as [| Hfolds]; [discriminate |].
  destruct (tss_gap t) as [gap |]; [| discriminate].
  set (ts := match tss_test_size t with
             | Some ts => ts
             | None => n_samples / (tss_n_splits t + 1)
             end).
  assert (Hpos : 0 < ts).
  { subst ts. destruct (tss_test_size t); [exact Hts |].
    apply Z.div_str_pos. lia. }
  destruct (Z.leb_spec (n_samples - gap - ts * tss_n_splits t) 0) as [| Hroom];
    [discriminate |].
  destruct (range _ _ _) as [starts | e] eqn:Hr; [| discriminate].
  intros Hok. inversion Hok; subst pairs. clear Hok.
  apply Forall_forall. intros pair Hin.
  apply in_map_iff in Hin. destruct Hin as (test_start & <- & Hin).
  eapply range_In in Hin; [| exact Hr]. destruct Hin as (i & -> & Hi).
  unfold fold_positions. rewrite Hm. cbn [fst].
  destruct (arange_pos_head (n := n_samples)) as (rest & Ha); [lia |].
  unfold slice. rewrite Ha.
  set (len := Z.of_nat (length (0 :: rest))).
  assert (Hlen : 0 < len) by (subst len; simpl length; lia).
  unfold slice_bound at 2. change (0 <? 0) with false. cbv iota.
  rewrite Z.min_l by lia. rewrite Z.sub_0_r. change (Z.to_nat 0) with 0%nat.
  cbn [skipn].
  assert (Hhi : 0 < slice_bound len (n_samples - tss_n_splits t * ts + i * ts - gap)).
  { unfold slice_bound.
    destruct (Z.ltb_spec (n_samples - tss_n_splits t * ts + i * ts - gap) 0); nia. }
  destruct (Z.to_nat (slice_bound len _)) as [| k] eqn:Hk; [lia |].
  simpl. auto.
Qed.

Lemma iloc_values_at {A} (s : Series A) positions : forall vs i,
  iloc_values s positions = Ok vs -> In i positions ->
  exists v, iloc1 s i = Ok v /\ In v vs.
Proof.
  induction positions as [| j rest IH]; intros vs i H Hin; [destruct Hin |].
  simpl in H.
  destruct (iloc1 s j) as [x |] eqn:Hx; [| discriminate].
  destruct (iloc_values s rest) as [xs |]; [| discriminate].
  inversion H; subst vs. destruct Hin as [-> | Hin].
  - exists x. simpl. auto.
  - destruct (IH xs i eq_refl Hin) as (v & Hv & Hvs). exists v. simpl. auto.
Qed.

Lemma isin_selects s vals v :
  In v vals -> In v (values s) -> (0 < count_true (isin s vals))%nat.
Proof.
  unfold isin, count_true, values. intros Hv Hs.
  induction s as [| r s IH]; [destruct Hs |].
  simpl. destruct (existsb (Z.eqb (snd r)) vals) eqn:He; simpl; [lia |].
  destruct Hs as [E | Hs]; [| now apply IH].
  exfalso. assert (Ht : existsb (Z.eqb (snd r)) vals = true).
  { apply existsb_exists. exists v. split; [exact Hv |]. rewrite E. apply Z.eqb_refl. }
  congruence.
Qed.

(** X12. A construction with the drop flag, no bound on the train window,
    a test size left out or positive, and one and the same label on every
    row drops every fold: it collects no fold, its split count is 0 and it
    prints one line per configured split. *)
Theorem init_constant_labels_drops_all
    tp up n gap ts plot (labels : Series Label) (v : Z) c ps c' :
  init tp up n gap ts None plot true (Some labels) c = (Ok ps, c') ->
  match ts with Some size => 0 < size | None => True end ->
  constant_labels labels v -> length labels = length tp ->
  all_indices ps = [] /\ n_splits ps = 0 /\
  Z.of_nat (length (stdout c')) = Z.of_nat (length (stdout c)) + n.
Proof.
  intros H Hts Hc Hlen. pose proof H as H'. apply init_ok in H'.
  destruct H' as (_ & Hn & Hu & _ & _ & _ & _ & _ & _ & _ & _).
  apply init_ok_folds in H.
  destruct H as (t0 & pairs & Ht & Hsel & Hloop & _ & _ & Hi & Hns & Ho & _).
  pose proof (TimeSeriesSplit_init_fields _ _ _ _ Ht) as (Hk & _ & Hsize & Hm).
  eapply TimeSeriesSplit_split_train_first in Hsel;
    [| lia | exact Hm | now rewrite Hsize].
  rewrite Forall_forall in Hsel.
  assert (Hall : forall f, In f (u_periods_cv ps) ->
                 is_dropped tp true (Some labels) f = true).
  { intros f Hf. eapply is_dropped_constant; eauto.
    eapply split_unique_periods_loop_In in Hf; [| exact Hloop].
    destruct Hf as (pair & Hp & Htr & _).
    pose proof (Hsel pair Hp) as Hzero.
    eapply iloc_values_at in Hzero; [| exact Htr].
    destruct Hzero as (p & Hp1 & Hp2).
    apply iloc1_nonneg in Hp1; [| lia]. apply nth_error_In in Hp1.
    rewrite default_unique_periods_In in Hp1.
    eapply isin_selects; eauto. }
  rewrite filter_none in Hi
    by (intros f Hf; unfold is_kept; now rewrite (Hall f Hf)).
  assert (Hd : length (dropped_positions tp true (Some labels) 0 (u_periods_cv ps))
               = length (u_periods_cv ps)).
  { unfold dropped_positions. rewrite length_map. now apply filter_enumerate_all. }
  split; [exact Hi |]. split; [lia |].
  rewrite Ho, length_app, length_map, Hd. lia.
Qed.

Lemma init_constant_labels_drops_all_witness :
  n_splits (object_of (init periods6 None 2 (Some 0) None None false true
                         (Some labels_constant) console0)) = 0.
Proof.
  destruct (init periods6 None 2 (Some 0) None None false true (Some labels_constant)
              console0) as [r c'] eqn:H.
  destruct r as [ps | e]; [| vm_compute in H; discriminate].
  pose proof (@init_constant_labels_drops_all periods6 None 2 (Some 0) None false
                labels_constant 0 console0 ps c' H I) as G.
  destruct G as (_ & G & _).
  - repeat constructor.
  - reflexivity.
  - exact G.
Defined.

(** ** Further properties of the appliers *)

Tactic Notation "bind_named" hyp(H) ident(a) ident(s) ident(E) :=
  apply bind_ok_inv in H; destruct H as (a & s & E & H).

Section PredictionTable.

Context {O Row W V IdxRow : Type} `{Estimator O Row W V}.

Lemma set_column_rows (pred : Series IdxRow) (vs : list V) out :
  set_column pred vs = Ok out -> map without_prediction out = pred.
Proof.
  unfold set_column. destruct (Nat.eqb_spec (length vs) (length pred)) as [Hl |];
    [| discriminate].
  intros E. inversion E; subst out. clear E. rewrite map_map.
  unfold without_prediction. cbn [fst snd].
  revert vs Hl. induction pred as [| [k r] pred IH]; intros [| v vs] Hl;
    simpl in *; try discriminate; auto.
  f_equal. apply IH. lia.
Qed.

Lemma cross_val_predict_body_rows estimator X y (indices : Series IdxRow) pm sw
    predictions models fold (w : World O) acc' w' :
  cross_val_predict_body estimator X y indices pm sw (predictions, models) fold w
  = (Ok acc', w') ->
  exists pred model,
    acc' = ((predictions ++ [pred])%list, (models ++ [model])%list) /\
    map without_prediction pred = select_mask indices (snd fold) /\
    panel w' = panel w.
Proof.
  intros Hb. unfold cross_val_predict_body in Hb.
  destruct fold as [train_indices test_indices].
  bind_named Hb y_train w1 E1. bind_named Hb X_train w2 E2.
  bind_named Hb X_test w3 E3. bind_named Hb y_test w4 E4.
  bind_named Hb pred w5 E5. bind_named Hb weights w6 E6.
  bind_named Hb r w7 E7. destruct r as [out model].
  bind_named Hb table w8 E8. unfold ret in Hb. inversion Hb; subst acc' w8. clear Hb.
  exists table, model. split; [reflexivity |]. split.
  - unfold lift_result in E8. inversion E8 as [[Hcol Hw8]].
    apply set_column_rows in Hcol. rewrite Hcol.
    unfold lift_result in E5. inversion E5 as [[Hl Hs]].
    unfold loc_mask in Hl. destruct (Nat.eqb _ _); now inversion Hl.
  - unfold lift_result in E1, E2, E3, E4, E5, E8.
    assert (H1 : w1 = w) by (now inversion E1).
    assert (H2 : w2 = w1) by (now inversion E2).
    assert (H3 : w3 = w2) by (now inversion E3).
    assert (H4 : w4 = w3) by (now inversion E4).
    assert (H5 : w5 = w4) by (now inversion E5).
    assert (H6 : w6 = w5).
    { destruct sw; [| unfold ret in E6; now inversion E6].
      bind_named E6 sliced w9 E9. unfold ret in E6. inversion E6; subst.
      unfold lift_result in E9. now inversion E9. }
    assert (H8 : w' = w7) by (now inversion E8).
    subst w' w6 w5 w4 w3 w2 w1. clear - E7.
    unfold _predict_fold in E7.
    assert (Hderef : forall r (u : World O) o u', deref r u = (Ok o, u') -> u' = u).
    { intros r u o u'. unfold deref. unfold_monad.
      destruct (nth_error (heap u) r); intros E; now inversion E. }
    bind_named E7 e u1 F1. apply Hderef in F1. subst u1.
    bind_named E7 fitted u2 F2. unfold lift_result in F2.
    assert (G2 : u2 = w) by (now inversion F2). subst u2.
    bind_named E7 unit1 u3 F3. unfold assign, modify in F3.
    assert (G3 : panel u3 = panel w) by (inversion F3; reflexivity).
    bind_named E7 m u4 F4.
    assert (G4 : panel u4 = panel u3).
    { destruct (snd fitted); [| unfold ret in F4; now inversion F4].
      unfold alloc in F4. unfold_monad. now inversion F4. }
    bind_named E7 mstate u5 F5. apply Hderef in F5. subst u5.
    rewrite <- G3, <- G4.
    assert (Hend : w7 = u4); [| now subst].
    unfold lift_result, ret, raise in E7.
    destruct (String.eqb pm "predict").
    { bind_named E7 o1 v1 K1. inversion K1; inversion E7; congruence. }
    destruct (String.eqb pm "predict_proba").
    { bind_named E7 o1 v1 K1. bind_named E7 o2 v2 K2.
      inversion K1; inversion K2; inversion E7; congruence. }
    destruct (String.eqb pm "predict_log_proba").
    { bind_named E7 o1 v1 K1. bind_named E7 o2 v2 K2.
      inversion K1; inversion K2; inversion E7; congruence. }
    discriminate.
Qed.

Lemma cross_val_predict_loop_rows estimator X y (indices : Series IdxRow) pm sw folds :
  forall predictions models (w : World O) predictions' models' w',
    fold_each folds (predictions, models)
      (cross_val_predict_body estimator X y indices pm sw) w
    = (Ok (predictions', models'), w') ->
    List.concat (map (map without_prediction) predictions')
    = (List.concat (map (map without_prediction) predictions)
       ++ List.concat (map (fun fold => select_mask indices (snd fold)) folds))%list /\
    length predictions' = (length predictions + length folds)%nat /\
    length models' = (length models + length folds)%nat /\
    panel w' = panel w.
Proof.
  induction folds as [| f folds IH]; intros predictions models w predictions' models' w' Hl.
  - simpl in Hl. unfold ret in Hl. inversion Hl; subst. simpl.
    rewrite app_nil_r. repeat split; lia.
  - rewrite fold_each_cons in Hl.
    destruct (cross_val_predict_body _ _ _ _ _ _ _ f w) as [[acc1 | e] w1] eqn:Hb;
      [| discriminate].
    apply cross_val_predict_body_rows in Hb.
    destruct Hb as (pred & model & -> & Hrows & Hpanel).
    apply IH in Hl. destruct Hl as (Hc & Hp & Hm & Hw).
    rewrite Hc, Hp, Hm, Hw, Hpanel, !length_app, map_app, concat_app.
    cbn [map List.concat length]. rewrite app_nil_r, Hrows, <- app_assoc.
    repeat split; lia.
Qed.

(** X13. When [cross_val_predict] returns, the rows of the table are, fold
    after fold in the order of [split()], the rows that the test mask of the
    fold selects: the index labels of the table are the index labels of
    those rows of [indices], in order, one row and one predicted value for
    each; the column of predictions is named by [y_pred_col], or by the
    name of [y] followed by [_pred]; and the list of fitted models, given
    when asked for, has one entry per fold. *)
Theorem cross_val_predict_table estimator X y y_name (indices : Series IdxRow)
    pm col flag sw (w : World O) table models w' :
  cross_val_predict estimator X y y_name indices pm col flag sw w
  = (Ok (table, models), w') ->
  exists folds,
    fst (split (XT:=unit) (GT:=unit) None None None false (panel w)) = Ok folds /\
    index (pred_rows table)
    = List.concat (map (fun fold => index (select_mask indices (snd fold))) folds) /\
    pred_column table
    = match col with
      | Some name => name
      | None => (match y_name with Some name => name | None => "None" end ++ "_pred")%string
      end /\
    match models with
    | Some l => flag = true /\ length l = length folds
    | None => flag = false
    end.
Proof.
  intros Hc. unfold cross_val_predict in Hc.
  bind_ok Hc. bind_ok Hc. rename a0 into folds.
  rewrite lift_panel_run in E0. inversion E0 as [[Hsplit Hs0]].
  assert (Hw : s = w).
  { unfold global_name in E. destruct (existsb _ _); unfold_monad; now inversion E. }
  subst s. bind_ok Hc. destruct a0 as [predictions fitted_models].
  apply cross_val_predict_loop_rows in E1.
  destruct E1 as (Hrows & _ & Hm & _). simpl in Hrows, Hm.
  bind_ok Hc. bind_ok Hc.
  exists folds. split; [exact Hsplit |].
  unfold lift_result in E2. inversion E2 as [[Hcat Hs3]].
  unfold concat in Hcat. destruct predictions as [| p0 rest]; [discriminate |].
  inversion Hcat; subst a1. clear Hcat.
  assert (Hindex : index (List.concat (p0 :: rest))
                   = List.concat (map (fun fold => index (select_mask indices (snd fold)))
                                    folds)).
  { unfold index.
    rewrite <- (map_map (fun fold => select_mask indices (snd fold)) (map fst)).
    rewrite <- concat_map, <- Hrows, <- concat_map, map_map.
    apply map_ext. intros r. reflexivity. }
  destruct flag; unfold ret in Hc; inversion Hc; subst; cbn [pred_rows pred_column].
  all: change (p0 ++ List.concat rest)%list with (List.concat (p0 :: rest)).
  all: (split; [exact Hindex |]); split; auto.
Qed.

End PredictionTable.

Lemma cross_val_predict_table_witness :
  index [(2, (12, 2)); (3, (13, 2)); (4, (14, 4)); (5, (15, 4))]
  = [2; 3; 4; 5].
Proof.
  destruct (cross_val_predict (IdxRow:=Z) 0%nat features6 labels_distinct (Some "y")
              features6 "predict" None true None world_plain) as [r w'] eqn:H.
  assert (Hr : r = Ok ({| pred_column := "y_pred";
                          pred_rows := [(2, (12, 2)); (3, (13, 2));
                                        (4, (14, 4)); (5, (15, 4))] |},
                       Some [0%nat; 0%nat])) by (now inversion H).
  subst r.
  apply cross_val_predict_table in H. destruct H as (folds & Hs & Hrows & _).
  cbn [pred_rows] in Hrows. rewrite Hrows.
  vm_compute in Hs. inversion Hs; subst folds. reflexivity.
Defined.

(** X14. On an object constructed with the drop flag, [cross_val_predict]
    always raises [AttributeError]: the [split()] it starts with is given no
    labels.  It raises before the estimator is used, so no object of the
    heap changes. *)
Theorem cross_val_predict_raises_with_drop_flag {O Row W V IdxRow : Type}
    `{Estimator O Row W V} tp up n gap ts mts plot y c ps c'
    estimator X labels y_name (indices : Series IdxRow) pm col flag sw (h : list O) :
  init tp up n gap ts mts plot true y c = (Ok ps, c') ->
  let out := cross_val_predict estimator X labels y_name indices pm col flag sw
               {| panel := {| self := ps; console := c' |}; heap := h |} in
  fst out = Raise (AttributeError "'NoneType' object has no attribute 'loc'") /\
  heap (snd out) = h.
Proof.
  intros Hi. cbv zeta. apply split_after_init_without_labels in Hi.
  match goal with
  | |- fst ?run = _ /\ _ =>
      assert (E : exists s', run = (Raise (AttributeError "'NoneType' object has no attribute 'loc'"),
                                    {| panel := s'; heap := h |}))
  end.
  { unfold cross_val_predict.
    change (global_name (S:=World O) "tqdm") with (ret (S:=World O) tt).
    unfold lift_panel, zoom. unfold bind at 1 2, ret at 1. cbn [panel heap].
    destruct (split (XT:=unit) (GT:=unit) None None None false
                {| self := ps; console := c' |}) as [r s'].
    cbn [fst] in Hi. subst r. eauto. }
  destruct E as (s' & ->). split; reflexivity.
Qed.

Lemma cross_val_predict_raises_with_drop_flag_witness :
  fst (cross_val_predict (IdxRow:=Z) 0%nat features6 labels_distinct (Some "y")
         features6 "predict" None true None
         {| panel := state_flat2; heap := [[]] |})
  = Raise (AttributeError "'NoneType' object has no attribute 'loc'").
Proof.
  apply (@cross_val_predict_raises_with_drop_flag (list Label) Z Z Z Z LabelRecorder
           periods6 None 2 (Some 0) None None false (Some labels_flat2) console0
           panel_flat2 (snd built_flat2)).
  reflexivity.
Defined.

(** X15. [_predict_fold] checks the prediction method after fitting: with a
    method it does not know it raises [ValueError], and by then the
    estimator has been fitted on the train rows (and the object [fit]
    returned, if another one, exists). *)
Theorem _predict_fold_unknown_method {O Row W V : Type} `{Estimator O Row W V}
    estimator X_train y_train (X_test : Series Row) pm sw (w : World O) e st r :
  nth_error (heap w) estimator = Some e ->
  fit e X_train y_train sw = Ok (st, r) ->
  supported_method pm = false ->
  _predict_fold estimator X_train y_train X_test pm sw w
  = (Raise invalid_prediction_method,
     {| panel := panel w;
        heap := match r with
                | None => store (heap w) estimator st
                | Some m => (store (heap w) estimator st ++ [m])%list
                end |}).
Proof.
  intros He Hfit Hpm. unfold supported_method in Hpm.
  apply orb_false_iff in Hpm. destruct Hpm as [Hpm H3].
  apply orb_false_iff in Hpm. destruct Hpm as [H1 H2].
  assert (Hlen : length (store (heap w) estimator st) = length (heap w)).
  { clear. generalize estimator. induction (heap w) as [| x l IH]; intros [| k];
      simpl; auto. }
  assert (Hst : nth_error (store (heap w) estimator st) estimator = Some st).
  { clear - He. revert He. generalize estimator.
    induction (heap w) as [| x l IH]; intros [| k] He; simpl in *;
      try discriminate; auto. }
  unfold _predict_fold, deref, assign, alloc. unfold_monad. rewrite He, Hfit.
  cbn [fst snd heap panel].
  destruct r as [m |]; cbn [heap panel].
  - rewrite nth_error_app2, Hlen, Nat.sub_diag by lia. cbn [nth_error].
    rewrite H1, H2, H3. reflexivity.
  - rewrite Hst, H1, H2, H3. reflexivity.
Qed.

Lemma _predict_fold_unknown_method_witness :
  _predict_fold (V:=Z) 0%nat (series [10; 11]) (series [Some 0; Some 1])
    (series [12]) "score" None world_plain
  = (Raise invalid_prediction_method,
     {| panel := panel world_plain; heap := [[Some 0; Some 1]] |}).
Proof.
  apply (@_predict_fold_unknown_method (list Label) Z Z Z LabelRecorder 0%nat
           (series [10; 11]) (series [Some 0; Some 1]) (series [12]) "score" None
           world_plain [] [Some 0; Some 1] None);
    reflexivity.
Defined.

(** X16. [cross_val_impute] never returns on a constructed object and
    creates no imputer: with the drop flag it raises in [split()]; without
    it, given a table with one row per row of the period column, it raises
    [NameError] for [clone] in the first fold. *)
Theorem cross_val_impute_never_returns {O Row : Type} `{Imputer O Row}
    tp up n gap ts mts plot df y c ps c'
    (imputer : ref) (X : Series Row) (flag : bool) (h : list O) :
  init tp up n gap ts mts plot df y c = (Ok ps, c') ->
  let out := cross_val_impute imputer X flag
               {| panel := {| self := ps; console := c' |}; heap := h |} in
  is_ok (fst out) = false /\ heap (snd out) = h /\
  (df = false -> length X = length tp -> fst out = Raise (NameError "clone")).
Proof.
  intros Hi. cbv zeta.
  match goal with
  | |- is_ok (fst ?run) = _ /\ _ =>
      assert (E : exists e s', run = (Raise e, {| panel := s'; heap := h |}) /\
                  (df = false -> length X = length tp -> e = NameError "clone"))
  end.
  { destruct df.
    - apply split_after_init_without_labels in Hi.
      unfold cross_val_impute. unfold bind at 1. rewrite lift_panel_run.
      cbn [panel fst heap]. rewrite Hi. do 2 eexists. split; [reflexivity |].
      intros; discriminate.
    - apply init_ok in Hi.
      destruct Hi as (_ & Hn & Hu & Hap & Hd & _).
      unfold cross_val_impute. unfold bind at 1. rewrite lift_panel_run. cbn [panel].
      destruct (split_no_drop (XT:=unit) (GT:=unit) None None None false
                  {| self := ps; console := c' |} Hd) as (f1 & s1 & E1 & C1 & _).
      rewrite E1. cbn [fst snd].
      change (global_name (S:=World O) "tqdm") with (ret (S:=World O) tt).
      unfold bind at 1, ret at 1.
      unfold bind at 1. rewrite lift_panel_run. cbn [panel heap].
      assert (Hd1 : drop_folds (self s1) = false).
      { destruct C1 as (_ & _ & _ & <-). exact Hd. }
      pose proof (split_cases (XT:=unit) (GT:=unit) None None None false s1) as Hcases.
      cbv zeta in Hcases. destruct Hcases as [_ Hres].
      destruct (split_no_drop (XT:=unit) (GT:=unit) None None None false s1 Hd1)
        as (f2 & s2 & E2 & C2 & L2).
      rewrite E2 in Hres. destruct (Hres f2 eq_refl) as (Hf2 & _).
      rewrite E2. cbn [fst snd].
      destruct C1 as (_ & Hu1 & Hap1 & _). cbn [self] in Hu1, Hap1.
      destruct f2 as [| [tr te] f2].
      { rewrite <- Hu1 in L2. simpl in L2. lia. }
      unfold bind at 1. rewrite fold_each_cons.
      unfold cross_val_impute_body. unfold_monad.
      assert (Hlen : length tr = length tp /\ length te = length tp).
      { assert (Hin : In (tr, te) (map (project (all_periods (self s1)))
                        (filter (is_kept (all_periods (self s1)) (drop_folds (self s1)) None)
                           (u_periods_cv (self s1)))))
          by (rewrite <- Hf2; simpl; auto).
        apply in_map_iff in Hin. destruct Hin as (f & Hp & _).
        unfold project in Hp. inversion Hp. rewrite !isin_length.
        rewrite <- Hap1, Hap. auto. }
      destruct Hlen as [Htr Hte].
      unfold loc_mask. rewrite Htr, Hte.
      destruct (Nat.eqb_spec (length tp) (length X)) as [Hx | Hx].
      + do 2 eexists. split; [reflexivity | reflexivity].
      + do 2 eexists. split; [reflexivity |]. intros _ Hx'. congruence. }
  destruct E as (e & s' & -> & He). cbn [fst snd heap is_ok].
  split; [reflexivity |]. split; [reflexivity |].
  intros Hdf Hx. now rewrite (He Hdf Hx).
Qed.

Lemma cross_val_impute_never_returns_witness :
  fst (cross_val_impute 0%nat gaps6 true
         {| panel := {| self := panel_plain; console := console0 |}; heap := [None] |})
  = Raise (NameError "clone").
Proof.
  apply (@cross_val_impute_never_returns (option Z) (option Z) FirstValueImputer
           periods6 None 2 (Some 0) None None false false None console0
           panel_plain console0 0%nat gaps6 true [None] eq_refl);
    reflexivity.
Defined.

Lemma LabelRecorder_fit_returns_self : fit_returns_self (H := LabelRecorder).
Proof. intros e X y sw st r E. simpl in E. now inversion E. Qed.

Lemma fitted_models_are_the_estimator_witness :
  Forall (eq 0%nat) [0%nat; 0%nat].
Proof.
  destruct (cross_val_predict (IdxRow:=Z) 0%nat features6 labels_distinct (Some "y")
              features6 "predict" None true None world_plain) as [r w'] eqn:E.
  assert (Hr : r = Ok ({| pred_column := "y_pred";
                          pred_rows := [(2, (12, 2)); (3, (13, 2));
                                        (4, (14, 4)); (5, (15, 4))] |},
                       Some [0%nat; 0%nat])) by (now inversion E).
  subst r.
  eapply fitted_models_are_the_estimator;
    [exact LabelRecorder_fit_returns_self | exact E].
Defined.

(** ** Further properties of [split_unique_periods] *)

Lemma iloc1_in_range {A} (s : Series A) i d :
  in_range s i -> iloc1 s i = Ok (nth (Z.to_nat i) (values s) d).
Proof.
  unfold in_range, iloc1. intros Hi.
  destruct (Z.ltb_spec i 0); [lia |].
  destruct (Z.ltb_spec i 0); [lia |].
  destruct (Z.leb_spec (Z.of_nat (length s)) i); [lia |]. cbn [orb].
  rewrite (nth_error_nth' (values s) d); [reflexivity |].
  unfold values. rewrite length_map. lia.
Qed.

Lemma iloc_values_in_range (s : Series Period) positions :
  Forall (in_range s) positions -> iloc_values s positions = Ok (periods_at s positions).
Proof.
  induction 1 as [| i rest Hi _ IH]; [reflexivity |].
  simpl. rewrite (@iloc1_in_range _ s i 0) by assumption. now rewrite IH.
Qed.

Lemma iloc1_errors {A} (s : Series A) i e : iloc1 s i = Raise e -> e = positional_IndexError.
Proof.
  unfold iloc1. destruct (_ || _); [intros E; now inversion E |].
  destruct (nth_error _ _); intros E; now inversion E.
Qed.

Lemma iloc_values_errors {A} (s : Series A) positions e :
  iloc_values s positions = Raise e -> e = positional_IndexError.
Proof.
  induction positions as [| i rest IH]; simpl; [discriminate |].
  destruct (iloc1 s i) eqn:H1; [| intros E; inversion E; subst; eapply iloc1_errors; eauto].
  destruct (iloc_values s rest); [discriminate |].
  intros E. inversion E; subst. now apply IH.
Qed.

Lemma iloc_values_out_of_bounds {A} (s : Series A) positions :
  Exists (out_of_bounds s) positions ->
  iloc_values s positions = Raise positional_IndexError.
Proof.
  induction 1 as [i rest Hi | i rest _ IH]; simpl.
  - assert (H1 : iloc1 s i = Raise positional_IndexError).
    { unfold iloc1, out_of_bounds in *.
      destruct (Z.ltb_spec i 0);
        [destruct (Z.ltb_spec (i + Z.of_nat (length s)) 0);
           [reflexivity |
            destruct (Z.leb_spec (Z.of_nat (length s)) (i + Z.of_nat (length s))); [reflexivity | lia]]
        | destruct (Z.ltb_spec i 0); [lia |];
          destruct (Z.leb_spec (Z.of_nat (length s)) i); [reflexivity | lia]]. }
    now rewrite H1.
  - rewrite IH. destruct (iloc1 s i) eqn:H1; [reflexivity |].
    apply iloc1_errors in H1. now subst.
Qed.

(** X18. For positions that are all in range, [split_unique_periods] does
    not raise: it returns one period-level fold per pair of the selector, in
    order, holding the period values at the train positions and at the test
    positions. *)
Theorem split_unique_periods_in_range pairs (unique_periods : Series Period) :
  Forall (fun pair => Forall (in_range unique_periods) (fst pair) /\
                      Forall (in_range unique_periods) (snd pair)) pairs ->
  split_unique_periods (Ok pairs) unique_periods
  = Ok (map (fun pair => (periods_at unique_periods (fst pair),
                          periods_at unique_periods (snd pair))) pairs).
Proof.
  unfold split_unique_periods.
  induction 1 as [| [tr te] rest [Htr Hte] _ IH]; [reflexivity |].
  cbn [split_unique_periods_loop fst snd map] in *.
  now rewrite (iloc_values_in_range Htr), (iloc_values_in_range Hte), IH.
Qed.

Lemma split_unique_periods_in_range_witness :
  split_unique_periods (Ok [([0], [1]); ([0; 1], [2])]) (series [1; 2; 3])
  = Ok [([1], [2]); ([1; 2], [3])].
Proof.
  apply (@split_unique_periods_in_range [([0], [1]); ([0; 1], [2])] (series [1; 2; 3])).
  repeat constructor; simpl; lia.
Defined.

(** X19. A position outside [-len, len) anywhere in the pairs of the
    selector makes [split_unique_periods] raise [IndexError]; no fold is
    returned. *)
Theorem split_unique_periods_out_of_bounds pairs (unique_periods : Series Period) :
  Exists (fun pair => Exists (out_of_bounds unique_periods) (fst pair) \/
                      Exists (out_of_bounds unique_periods) (snd pair)) pairs ->
  split_unique_periods (Ok pairs) unique_periods = Raise positional_IndexError.
Proof.
  unfold split_unique_periods.
  induction 1 as [[tr te] rest Hp | [tr te] rest _ IH];
    cbn [split_unique_periods_loop fst snd] in *.
  - destruct Hp as [Hp | Hp].
    + now rewrite (iloc_values_out_of_bounds Hp).
    + rewrite (iloc_values_out_of_bounds Hp).
      destruct (iloc_values unique_periods tr) eqn:E; [reflexivity |].
      apply iloc_values_errors in E. now subst.
  - rewrite IH.
    destruct (iloc_values unique_periods tr) eqn:E1;
      [| apply iloc_values_errors in E1; now subst].
    destruct (iloc_values unique_periods te) eqn:E2;
      [reflexivity | apply iloc_values_errors in E2; now subst].
Qed.

Lemma split_unique_periods_out_of_bounds_witness :
  split_unique_periods (Ok [([0], [1]); ([0; 1], [3])]) (series [1; 2; 3])
  = Raise positional_IndexError.
Proof.
  apply (@split_unique_periods_out_of_bounds [([0], [1]); ([0; 1], [3])]
           (series [1; 2; 3])).
  right. left. right. left. right. simpl. lia.
Defined.

(** ** Missing labels *)

Lemma dropna_no_missing rows : Forall (fun r : Z * Label => snd r <> None) (dropna rows).
Proof.
  unfold dropna. apply Forall_forall. intros r Hr.
  apply filter_In in Hr. destruct Hr as [_ Hr].
  destruct r as [k l]. simpl in *. destruct l; congruence.
Qed.

Lemma bind_ext_ok {S A B} (c : M S A) (k1 k2 : A -> M S B) s :
  (forall a s', c s = (Ok a, s') -> k1 a s' = k2 a s') ->
  bind c k1 s = bind c k2 s.
Proof.
  intros Hk. unfold bind. destruct (c s) as [[a | e] s']; [| reflexivity].
  now apply Hk.
Qed.

Section MissingLabels.

Context {O Row W V IdxRow : Type} (H1 H2 : Estimator O Row W V).
Hypothesis Hagree : agree_without_missing H1 H2.

Lemma _predict_fold_agree estimator X_train y_train X_test pm sw (w : World O) :
  Forall (fun r => snd r <> None) y_train ->
  @_predict_fold O Row W V H1 estimator X_train y_train X_test pm sw w
  = @_predict_fold O Row W V H2 estimator X_train y_train X_test pm sw w.
Proof.
  intros Hy. destruct Hagree as (Hfit & Hp & Hpp & Hplp).
  unfold _predict_fold, deref, assign, alloc. unfold_monad.
  destruct (nth_error (heap w) estimator) as [e |]; [| reflexivity].
  rewrite (Hfit e X_train y_train sw Hy).
  destruct (@fit _ _ _ _ H2 e X_train y_train sw) as [[st r] | err]; [| reflexivity].
  cbn [fst snd heap panel].
  destruct r as [m |]; cbn [heap panel];
    match goal with
    | |- context [nth_error ?h ?k] => destruct (nth_error h k); [| reflexivity]
    end;
    rewrite Hp, Hpp, Hplp; reflexivity.
Qed.

Lemma cross_val_predict_body_agree estimator X y (indices : Series IdxRow) pm sw
    acc fold (w : World O) :
  @cross_val_predict_body O Row W V IdxRow H1 estimator X y indices pm sw acc fold w
  = @cross_val_predict_body O Row W V IdxRow H2 estimator X y indices pm sw acc fold w.
Proof.
  unfold cross_val_predict_body. destruct acc as [predictions models].
  destruct fold as [train_indices test_indices].
  apply bind_ext_ok. intros y_train w1 Hy.
  assert (Hno : Forall (fun r => snd r <> None) y_train).
  { unfold lift_result in Hy.
    destruct (loc_mask y train_indices); inversion Hy. apply dropna_no_missing. }
  do 5 (apply bind_ext_ok; intros ? ? _).
  unfold bind at 1 3. now rewrite _predict_fold_agree.
Qed.

Lemma cross_val_predict_loop_agree estimator X y (indices : Series IdxRow) pm sw folds :
  forall acc (w : World O),
    fold_each folds acc
      (@cross_val_predict_body O Row W V IdxRow H1 estimator X y indices pm sw) w
    = fold_each folds acc
        (@cross_val_predict_body O Row W V IdxRow H2 estimator X y indices pm sw) w.
Proof.
  induction folds as [| f folds IH]; intros acc w; [reflexivity |].
  rewrite !fold_each_cons, cross_val_predict_body_agree.
  destruct (cross_val_predict_body _ _ _ _ _ _ acc f w) as [[acc1 | e] w1];
    [apply IH | reflexivity].
Qed.

(** X20. [cross_val_predict] never hands a missing label to [fit]: the
    train rows whose label is missing are dropped first.  Two estimators
    that differ only in what [fit] does with label series that hold a
    missing value give the same outcome and leave the same state. *)
Theorem cross_val_predict_fit_sees_no_missing_label
    estimator X y y_name (indices : Series IdxRow) pm col flag sw (w : World O) :
  @cross_val_predict O Row W V IdxRow H1 estimator X y y_name indices pm col flag sw w
  = @cross_val_predict O Row W V IdxRow H2 estimator X y y_name indices pm col flag sw w.
Proof.
  unfold cross_val_predict.
  do 2 (apply bind_ext_ok; intros ? ? _).
  unfold bind at 1 4. now rewrite cross_val_predict_loop_agree.
Qed.

End MissingLabels.

Lemma recorders_agree_without_missing :
  agree_without_missing LabelRecorder StrictRecorder.
Proof.
  repeat split. intros e X y sw Hy. simpl.
  replace (forallb _ (values y)) with true; [reflexivity |].
  symmetry. apply forallb_forall. intros l Hl.
  unfold values in Hl. apply in_map_iff in Hl. destruct Hl as (r & <- & Hr).
  rewrite Forall_forall in Hy. specialize (Hy r Hr). now destruct (snd r).
Qed.

Lemma cross_val_predict_fit_sees_no_missing_label_witness :
  @cross_val_predict (list Label) Z Z Z Z LabelRecorder 0%nat features6 labels_missing
    (Some "y") features6 "predict" None true None world_plain
  = @cross_val_predict (list Label) Z Z Z Z StrictRecorder 0%nat features6 labels_missing
      (Some "y") features6 "predict" None true None world_plain.
Proof.
  apply (@cross_val_predict_fit_sees_no_missing_label (list Label) Z Z Z Z
           LabelRecorder StrictRecorder recorders_agree_without_missing).
Defined.
